(** * behavenet: the state-space-model harness (behavenet/analyses/ssm_harness.py)

    A shallow embedding of the harness' cache decorator, preprocessing,
    state relabelling, sampler and movie pre-flight, followed by the
    properties proved about them.

    Python values are modelled as follows: [str] as [string], [int] as [Z]
    (or [nat] for lengths and indices), a [list] as [list], an exception as a
    [Raise] result, the file system and the object heap as finite maps.
    Calls into numpy, scipy, scikit-learn, ssm and matplotlib are not part of
    the repository: each one is either a Section variable carrying the
    library's documented contract, or a small model of the documented
    behaviour, and says so in its comment. *)

From Stdlib Require Import ZArith QArith Qminmax List Ascii String Bool Lia.
From Stdlib Require Import Sorting.Sorted Sorting.Permutation.
From stdpp Require Import gmap strings list sorting pretty.

Local Open Scope string_scope.
Local Open Scope list_scope.

(* ===================================================================== *)
(** * Part I: the embedding                                               *)
(* ===================================================================== *)

(** ** Python results *)

(** The exceptions the modelled code paths can raise.  An [AssertionError]
    carries the source line of the [assert] that failed, as the traceback
    does. *)
Inductive pyexn : Type :=
  | AssertionError (line : nat)
  | ValueError
  | IndexError
  | ZeroDivisionError
  | RuntimeError
  | FileNotFoundError
  | IsADirectoryError
  | PicklingError
  | UnpicklingError
  | UserException (tag : nat)
  | NoSuchObject.   (* not Python's: a reference to no object, which cannot arise *)

Inductive result (A : Type) : Type :=
  | Ok (a : A)
  | Raise (e : pyexn).
Arguments Ok {A} a.
Arguments Raise {A} e.

(** Sequencing: an exception skips the rest.  With these instances
    [x ← c; k] reads as Python's statement sequence. *)
#[global] Instance result_ret : MRet result := fun A a => Ok a.
#[global] Instance result_bind : MBind result := fun A B k r =>
  match r with
  | Ok a => k a
  | Raise e => Raise e
  end.

(* --------------------------------------------------------------------- *)
(** ** The [cached] decorator (ssm_harness.py, lines 45-62)               *)
(* --------------------------------------------------------------------- *)

Module Cache.

(** [str.endswith]: [suffix] read backwards is a prefix of [s] read
    backwards. *)
Fixpoint starts_with (p l : list ascii) : bool :=
  match p, l with
  | [], _ => true
  | _ :: _, [] => false
  | x :: p', y :: l' => Ascii.eqb x y && starts_with p' l'
  end.

Definition endswith (s suffix : string) : bool :=
  starts_with (rev (list_ascii_of_string suffix)) (rev (list_ascii_of_string s)).

Definition startswith (s pre : string) : bool :=
  starts_with (list_ascii_of_string pre) (list_ascii_of_string s).

(** [os.path.join(a, b)] of posixpath, for one trailing component:
    [[
        if b.startswith(sep): path = b
        elif not path or path.endswith(sep): path += b
        else: path += sep + b
    ]] *)
Definition os_path_join (a b : string) : string :=
  if startswith b "/" then b
  else if String.eqb a "" || endswith a "/" then a +:+ b
  else a +:+ "/" +:+ b.

(** Lines 48-50: the path of the cache entry. *)
Definition results_file (output_dir results_name : string) : string :=
  let results_file := os_path_join output_dir results_name in
  if negb (endswith results_file ".pkl") then results_file +:+ ".pkl"
  else results_file.

(** The file system: what is at a path, and the operating system's verdict
    on whether a new file can be created at a path (its directory exists and
    is writable).  The decorator only ever creates regular files, so the
    verdict does not change while it runs.  Paths are compared as strings:
    two spellings of one file are not identified, and the properties below
    speak of one path string at a time. *)
Inductive node : Type :=
  | File (content : string)
  | Dir.

Record filesystem : Type := {
  nodes : gmap string node;
  creatable : string -> bool
}.

(** [os.path.exists] *)
Definition os_path_exists (fs : filesystem) (p : string) : bool :=
  match nodes fs !! p with
  | Some _ => true
  | None => false
  end.

(** [open(p, "rb")] followed by reading the whole file. *)
Definition read_file (fs : filesystem) (p : string) : result string :=
  match nodes fs !! p with
  | Some (File c) => Ok c
  | Some Dir => Raise IsADirectoryError
  | None => Raise FileNotFoundError
  end.

(** [open(p, "wb")]: creates or truncates the file. *)
Definition open_wb (fs : filesystem) (p : string) : result filesystem :=
  match nodes fs !! p with
  | Some Dir => Raise IsADirectoryError
  | Some (File _) =>
      Ok {| nodes := <[p := File ""]> (nodes fs); creatable := creatable fs |}
  | None =>
      if creatable fs p
      then Ok {| nodes := <[p := File ""]> (nodes fs); creatable := creatable fs |}
      else Raise FileNotFoundError
  end.

Definition write_file (fs : filesystem) (p data : string) : filesystem :=
  {| nodes := <[p := File data]> (nodes fs); creatable := creatable fs |}.

(** The observable state: the file system and the number of times the body
    of a wrapped function has run. *)
Record world : Type := {
  fs : filesystem;
  calls : nat
}.

Section Decorator.
(** [R]: the results of wrapped functions; [A]: their positional and
    keyword arguments.  [pickle.dumps] fails on values that cannot be
    pickled, [pickle.loads] on bytes that are no pickle. *)
Context {R A : Type}.
Variable pickle_dumps : R -> option string.
Variable pickle_loads : string -> option R.

(** [func_wrapper] of [cached(output_dir, results_name)(func)], lines
    47-60.  The wrapped function is side-effect free: a function of its
    arguments that returns or raises. *)
Definition func_wrapper (output_dir results_name : string)
    (func : A -> result R) (args : A) (w : world) : result R * world :=
  let results_file := results_file output_dir results_name in
  if os_path_exists (fs w) results_file then
    match read_file (fs w) results_file with
    | Raise e => (Raise e, w)
    | Ok data =>
        match pickle_loads data with
        | Some results => (Ok results, w)
        | None => (Raise UnpicklingError, w)
        end
    end
  else
    let w1 := {| fs := fs w; calls := S (calls w) |} in
    match func args with
    | Raise e => (Raise e, w1)
    | Ok results =>
        match open_wb (fs w1) results_file with
        | Raise e => (Raise e, w1)
        | Ok fs1 =>
            match pickle_dumps results with
            | None => (Raise PicklingError, {| fs := fs1; calls := calls w1 |})
            | Some data =>
                (Ok results,
                 {| fs := write_file fs1 results_file data; calls := calls w1 |})
            end
        end
    end.
End Decorator.

(** A concrete pickle for results that are natural numbers: the number in
    unary. *)
Fixpoint unary (n : nat) : string :=
  match n with
  | O => ""
  | S n' => String "1" (unary n')
  end.

Definition unary_dumps (n : nat) : option string := Some (unary n).
Definition unary_loads (s : string) : option nat := Some (String.length s).

Definition empty_fs : filesystem :=
  {| nodes := ∅; creatable := fun _ => true |}.

Definition fresh_world : world := {| fs := empty_fs; calls := 0 |}.


End Cache.

(* --------------------------------------------------------------------- *)
(** ** Sorting states by usage in [fit_model] (lines 110-113)             *)
(* --------------------------------------------------------------------- *)

Module Relabel.

(** [np.concatenate] of a list of one-dimensional arrays: an empty list is
    a [ValueError]. *)
Definition np_concatenate (arrays : list (list nat)) : result (list nat) :=
  match arrays with
  | [] => Raise ValueError
  | _ :: _ => Ok (concat arrays)
  end.

(** [np.bincount(x, minlength=n)]: how often each value occurs; the result
    has [max(n, max(x) + 1)] entries. *)
Definition bincount (x : list nat) (minlength : nat) : list Z :=
  let n := match x with
           | [] => minlength
           | _ :: _ => Nat.max minlength (S (list_max x))
           end in
  map (fun k => Z.of_nat (count_occ Nat.eq_dec x k)) (seq 0 n).

(** [arr[perm]]: indexing by an array of indices. *)
Fixpoint np_take {A : Type} (arr : list A) (perm : list nat) : result (list A) :=
  match perm with
  | [] => Ok []
  | i :: perm' =>
      match arr !! i with
      | None => Raise IndexError
      | Some x => xs ← np_take arr perm'; mret (x :: xs)
      end
  end.

(** The entry of [v] an index names. *)
Definition key (v : list Z) (i : nat) : Z := nth i v 0%Z.

(** What numpy documents of [np.argsort(v)], whatever the sorting kind: the
    result lists every index of [v] once, and reading [v] in that order gives
    a non-decreasing sequence. *)
Definition is_argsort (v : list Z) (p : list nat) : Prop :=
  Permutation p (seq 0 (length v)) /\ Sorted Z.le (map (key v) p).

(** The claim about ties: of two states with equal occupancy, the one with
    the smaller original index comes first in the new order. *)
Definition ties_keep_order (usage : list Z) (perm : list nat) : Prop :=
  forall a b i j,
    (a < b)%nat -> perm !! a = Some i -> perm !! b = Some j ->
    key usage i = key usage j -> (i < j)%nat.

(** The order a stable sort establishes: by key, and by index among equal
    keys. *)
Definition lex_lt (v : list Z) (i j : nat) : Prop :=
  (key v i < key v j)%Z \/ (key v i = key v j /\ (i < j)%nat).

Section SortStates.
(** [P]: what the fitted model holds per discrete state (initial
    probability, transition row and column, observation parameters). *)
Context {P : Type}.
Variable argsort : list Z -> list nat.

(** [model.permute(perm)] of ssm: the new state [k] is the old state
    [perm[k]]. *)
Definition permute (model : list P) (perm : list nat) : result (list P) :=
  np_take model perm.

(** Lines 112-113, from the state paths decoded at line 111:
    [[
        usage = np.bincount(np.concatenate(train_states), minlength=num_discrete_states)
        model.permute(np.argsort(-usage))
    ]]
    The result keeps [usage] and the permutation next to the permuted
    model. *)
Definition sort_states_by_usage (num_discrete_states : nat)
    (train_states : list (list nat)) (model : list P)
    : result (list Z * list nat * list P) :=
  all_states ← np_concatenate train_states;
  let usage := bincount all_states num_discrete_states in
  let perm := argsort (map Z.opp usage) in
  model' ← permute model perm;
  mret (usage, perm, model').
End SortStates.

(** *** Sorting routines that meet numpy's contract

    [np.argsort] is called without [kind]: numpy then sorts with its default
    kind, which it documents as not stable and implements differently from
    one platform and version to the next.  numpy is no part of the
    repository, so the relabelling is stated for any routine that meets
    [is_argsort].  The two routines below meet it and differ on ties only;
    they stand in for numpy where a concrete run is needed. *)

(** Insertion of index [vi] into a segment sorted so far, held back to
    front: [vi] moves to the left past every entry whose key is strictly
    greater. *)
Fixpoint insert_from_right (v : list Z) (vi : nat) (sorted_rev : list nat) : list nat :=
  match sorted_rev with
  | [] => [vi]
  | k :: rest =>
      if (key v vi <? key v k)%Z
      then k :: insert_from_right v vi rest
      else vi :: k :: rest
  end.

(** The insertion sort of a segment, left to right. *)
Definition insertion_sort (v : list Z) (segment : list nat) : list nat :=
  rev (fold_left (fun sorted_rev vi => insert_from_right v vi sorted_rev) segment []).

(** A stable argsort: equal keys stay in the order of their indices. *)
Definition argsort_insertion (v : list Z) : list nat :=
  insertion_sort v (seq 0 (length v)).

(** An argsort that puts equal keys in the reverse order of their
    indices. *)
Definition argsort_ties_reversed (v : list Z) : list nat :=
  rev (argsort_insertion (map Z.opp v)).

End Relabel.

(* --------------------------------------------------------------------- *)
(** ** [preprocess_neural_data] (lines 66-79)                             *)
(* --------------------------------------------------------------------- *)

Module Preprocess.

(** A numpy array is its shape and its entries by index (entries outside
    the shape are never read).  Floats are idealised as rationals; the one
    place the code can leave the finite numbers is the division at line 73,
    whose result is [NotFinite] (numpy's [inf] or [nan]) when the divisor is
    zero. *)
Inductive npfloat : Type :=
  | Finite (q : Q)
  | NotFinite.

Record ndarray3 (E : Type) : Type := {
  shape3 : nat * nat * nat;
  at3 : nat -> nat -> nat -> E
}.
Arguments shape3 {E} _.
Arguments at3 {E} _ _ _ _.

Record ndarray2 (E : Type) : Type := {
  shape2 : nat * nat;
  at2 : nat -> nat -> E
}.
Arguments shape2 {E} _.
Arguments at2 {E} _ _ _.

Record ndarray1 (E : Type) : Type := {
  shape1 : nat;
  at1 : nat -> E
}.
Arguments shape1 {E} _.
Arguments at1 {E} _ _.

(** [int(x)]: truncation towards zero. *)
Definition int_of (x : Q) : Z := Z.quot (Qnum x) (Zpos (Qden x)).

(** The largest of [f 0], ..., [f n]. *)
Fixpoint max_upto (f : nat -> Q) (n : nat) : Q :=
  match n with
  | O => f O
  | S n' => Qmax (max_upto f n') (f (S n'))
  end.

(** [np.max] along an axis of length [n]: an empty axis is a
    [ValueError]. *)
Definition np_max_axis (n : nat) (f : nat -> Q) : result Q :=
  match n with
  | O => Raise ValueError
  | S n' => Ok (max_upto f n')
  end.

(** [np.max(a, axis=0)] of a three-dimensional array. *)
Definition np_max_axis0_3 (a : ndarray3 Q) : result (ndarray2 Q) :=
  let '(d0, d1, d2) := shape3 a in
  match d0 with
  | O => Raise ValueError
  | S n' => Ok {| shape2 := (d1, d2);
                  at2 := fun j k => max_upto (fun i => at3 a i j k) n' |}
  end.

(** [np.max(a, axis=0)] of a two-dimensional array. *)
Definition np_max_axis0_2 (a : ndarray2 Q) : result (ndarray1 Q) :=
  let '(d0, d1) := shape2 a in
  match d0 with
  | O => Raise ValueError
  | S n' => Ok {| shape1 := d1;
                  at1 := fun k => max_upto (fun j => at2 a j k) n' |}
  end.

(** numpy's float division: dividing by zero gives no exception but a value
    that is not finite. *)
Definition np_divide (x m : Q) : npfloat :=
  if Qeq_bool m 0%Q then NotFinite else Finite (x / m)%Q.

(** [a.reshape((rows, cols))] of a three-dimensional array, in C order. *)
Definition reshape_3_to_2 {E : Type} (a : ndarray3 E) (rows cols : nat)
    : result (ndarray2 E) :=
  let '(d0, d1, d2) := shape3 a in
  if (d0 * d1 * d2 =? rows * cols)%nat then
    Ok {| shape2 := (rows, cols);
          at2 := fun r c =>
                   let flat := (r * cols + c)%nat in
                   at3 a (flat / (d1 * d2)) ((flat / d2) mod d1) (flat mod d2) |}
  else Raise ValueError.

(** [a.reshape((d0, d1, d2))] of a two-dimensional array, in C order. *)
Definition reshape_2_to_3 {E : Type} (a : ndarray2 E) (d0 d1 d2 : nat)
    : result (ndarray3 E) :=
  let '(rows, cols) := shape2 a in
  if (rows * cols =? d0 * d1 * d2)%nat then
    Ok {| shape3 := (d0, d1, d2);
          at3 := fun i j k =>
                   let flat := ((i * d1 + j) * d2 + k)%nat in
                   at2 a (flat / cols) (flat mod cols) |}
  else Raise ValueError.

(** scikit-learn validates its input: every entry must be finite. *)
Definition is_finite (x : npfloat) : bool :=
  match x with
  | Finite _ => true
  | NotFinite => false
  end.

Definition all_finite (X : ndarray2 npfloat) : bool :=
  let '(rows, cols) := shape2 X in
  forallb (fun r => forallb (fun c => is_finite (at2 X r c)) (seq 0 cols)) (seq 0 rows).

Definition finite_part (X : ndarray2 npfloat) : ndarray2 Q :=
  {| shape2 := shape2 X;
     at2 := fun r c => match at2 X r c with
                       | Finite q => q
                       | NotFinite => 0%Q
                       end |}.

(** A fitted [sklearn.decomposition.PCA]. *)
Record pca : Type := {
  n_components : nat;
  n_features : nat;
  fitted_on : ndarray2 Q
}.

Section Pipeline.
(** [scipy.ndimage.gaussian_filter1d(x, sigma, axis=1)] on the series of
    length [T] of one trial and one neuron; the result has the shape of the
    input, so the filter is given by what it does to one series. *)
Variable gaussian_filter1d : Z -> nat -> (nat -> Q) -> nat -> Q.

(** The numbers [PCA.transform] computes (a singular value decomposition
    has no rational arithmetic): the score of sample [r] on component [c],
    for a PCA fitted on one matrix and applied to another. *)
Variable pca_scores : nat -> ndarray2 Q -> ndarray2 Q -> nat -> nat -> Q.

(** [PCA(n).fit(X)]: scikit-learn raises a [ValueError] on an entry that
    is not finite, on an empty sample, and unless
    [0 <= n <= min(n_samples, n_features)]. *)
Definition PCA_fit (n : nat) (X : ndarray2 npfloat) : result pca :=
  let '(n_samples, n_feat) := shape2 X in
  if negb (all_finite X) then Raise ValueError
  else if (n_samples =? 0)%nat || (n_feat =? 0)%nat then Raise ValueError
  else if negb (n <=? Nat.min n_samples n_feat)%nat then Raise ValueError
  else Ok {| n_components := n; n_features := n_feat; fitted_on := finite_part X |}.

(** [pca.transform(X)]: one row of [n_components] scores per sample. *)
Definition PCA_transform (p : pca) (X : ndarray2 npfloat) : result (ndarray2 Q) :=
  let '(n_samples, n_feat) := shape2 X in
  if negb (all_finite X) then Raise ValueError
  else if negb (n_feat =? n_features p)%nat then Raise ValueError
  else Ok {| shape2 := (n_samples, n_components p);
             at2 := pca_scores (n_components p) (fitted_on p) (finite_part X) |}.

(** Lines 70-71: the smoothed counts in rate units.  The product
    [window * fs] is taken exactly; for the defaults, [window=0.1] and
    [fs=40], it is 4 as in Python's floats. *)
Definition smoothed_rates (neural_data : ndarray3 Q) (fs window : Q) : ndarray3 Q :=
  let '(n_trials, trial_length, n_neurons) := shape3 neural_data in
  let filter_size := int_of (window * fs)%Q in
  {| shape3 := shape3 neural_data;
     at3 := fun i j k =>
              (gaussian_filter1d filter_size trial_length
                 (fun j' => at3 neural_data i j' k) j * fs)%Q |}.

(** Line 72: the peak rate of every neuron over trials and time. *)
Definition peak_rates (rates : ndarray3 Q) : result (ndarray1 Q) :=
  over_trials ← np_max_axis0_3 rates;
  np_max_axis0_2 over_trials.

(** Line 73: [rates / max_rates], broadcast along the last axis. *)
Definition normalize (rates : ndarray3 Q) (max_rates : ndarray1 Q) : ndarray3 npfloat :=
  {| shape3 := shape3 rates;
     at3 := fun i j k => np_divide (at3 rates i j k) (at1 max_rates k) |}.

(** Every neuron fires: its peak smoothed rate is not zero. *)
Definition neurons_all_fire (neural_data : ndarray3 Q) (fs window : Q) : Prop :=
  forall max_rates k,
    peak_rates (smoothed_rates neural_data fs window) = Ok max_rates ->
    (k < snd (shape3 neural_data))%nat ->
    ~ (at1 max_rates k == 0)%Q.

(** The function, returning
    [(normalized_rates, lowd_neural_data, pca, max_rates)]. *)
Definition preprocess_neural_data (neural_data : ndarray3 Q) (fs window : Q)
    : result (ndarray3 npfloat * ndarray3 Q * pca * ndarray1 Q) :=
  let '(n_trials, trial_length, n_neurons) := shape3 neural_data in
  let rates := smoothed_rates neural_data fs window in
  max_rates ← peak_rates rates;
  let normalized_rates := normalize rates max_rates in
  pooled ← reshape_3_to_2 normalized_rates (n_trials * trial_length) n_neurons;
  pca ← PCA_fit 20 pooled;
  pooled' ← reshape_3_to_2 normalized_rates (n_trials * trial_length) n_neurons;
  lowd_neural_data ← PCA_transform pca pooled';
  lowd ← reshape_2_to_3 lowd_neural_data n_trials trial_length 20;
  mret (normalized_rates, lowd, pca, max_rates).
End Pipeline.

(** The defaults of the signature: [fs=40, window=0.1]. *)
Definition default_fs : Q := 40%Q.
Definition default_window : Q := (1 # 10)%Q.

(** Concrete stand-ins for the two library computations: a three-point
    moving average with reflected ends, and scores that are all zero. *)
Definition box_filter (sigma : Z) (T : nat) (x : nat -> Q) (j : nat) : Q :=
  let left := match j with O => x O | S j' => x j' end in
  let right := if (S j <? T)%nat then x (S j) else x j in
  ((left + x j + right) / 3)%Q.

Definition zero_scores (n : nat) (fit X : ndarray2 Q) (r c : nat) : Q := 0%Q.

(** A count array with the same count everywhere. *)
Definition constant_counts (d0 d1 d2 : nat) (c : Q) : ndarray3 Q :=
  {| shape3 := (d0, d1, d2); at3 := fun _ _ _ => c |}.

End Preprocess.

(* --------------------------------------------------------------------- *)
(** ** [sample_arhmm] (lines 125-142)                                     *)
(* --------------------------------------------------------------------- *)

Module Sampler.

(** Objects live in a heap and are named by their identity. *)
Definition loc : Type := nat.

Section Sampling.
(** [M]: the state of an ssm HMM object (all its parameters); [G]: the
    state of numpy's global random number generator; [U]: a row of the
    input; [X]: a row of a sampled trajectory. *)
Context {M G U X : Type}.

(** [arhmm.sample(T=T, input=input, with_noise=with_noise)] of ssm, as a
    method: it reads and may update the object it is called on, and draws
    from the global generator.  It returns the state path and the
    trajectory. *)
Variable hmm_sample : M -> G -> nat -> list U -> bool -> (list nat * list X) * M * G.

(** [numpy.random.seed(seed)] (line 39): the generator state a seed
    stands for. *)
Variable npr_seed : Z -> G.

Record interp : Type := {
  heap : gmap loc M;
  rng : G
}.

(** [copy.deepcopy(obj)]: a new object with the same state. *)
Definition deepcopy (obj : loc) (s : interp) : result (loc * interp) :=
  match heap s !! obj with
  | None => Raise NoSuchObject
  | Some m =>
      let new := fresh (dom (heap s)) in
      Ok (new, {| heap := <[new := m]> (heap s); rng := rng s |})
  end.

(** Lines 134-137: the loop over [trange(num_samples)], with the two
    lists it appends to. *)
Fixpoint sample_loop (n : nat) (arhmm : loc) (T : nat) (input : list U)
    (with_noise : bool) (s : interp)
    (z_smpls : list (list nat)) (x_smpls : list (list X))
    : result (list (list nat) * list (list X) * interp) :=
  match n with
  | O => Ok (z_smpls, x_smpls, s)
  | S n' =>
      match heap s !! arhmm with
      | None => Raise NoSuchObject
      | Some m =>
          let '(z_smpl, x_smpl, m', g') := hmm_sample m (rng s) T input with_noise in
          sample_loop n' arhmm T input with_noise
            {| heap := <[arhmm := m']> (heap s); rng := g' |}
            (z_smpls ++ [z_smpl]) (x_smpls ++ [x_smpl])
      end
  end.

(** [np.mean(x_smpls, axis=0)] and [np.std(x_smpls, axis=0)] (lines
    139-140) need trajectories of one length; their values are not used. *)
Definition stackable (x_smpls : list (list X)) : bool :=
  match x_smpls with
  | [] => true
  | x :: rest => forallb (fun y => (length y =? length x)%nat) rest
  end.

Definition sample_arhmm (arhmm_orig : loc) (test_input : list U)
    (num_samples : Z) (with_noise : bool) (s : interp)
    : result (list (list nat) * list (list X) * interp) :=
  '(arhmm, s) ← deepcopy arhmm_orig s;
  let T := length test_input in
  '(z_smpls, x_smpls, s) ←
    sample_loop (Z.to_nat num_samples) arhmm T test_input with_noise s [] [];
  if stackable x_smpls then mret (z_smpls, x_smpls, s) else Raise ValueError.

(** The interpreter right after the module is imported: line 39 has
    seeded the generator. *)
Definition seeded (seed : Z) (objects : gmap loc M) : interp :=
  {| heap := objects; rng := npr_seed seed |}.
End Sampling.

(** A toy model object and generator: the object counts the draws made from
    it, the generator is a linear congruential one, and a draw repeats the
    generator's state along the path. *)
Definition toy_sample (m : nat) (g : nat) (T : nat) (input : list Z) (with_noise : bool)
    : (list nat * list Z) * nat * nat :=
  (repeat (g mod 3)%nat T, repeat (Z.of_nat g) T, S m, (5 * g + 1) mod 16)%nat.

Definition toy_seed (seed : Z) : nat := Z.to_nat seed.

Definition toy_interp : interp (M := nat) (G := nat) :=
  seeded toy_seed 0 {[ 7%nat := 0%nat ]}.

End Sampler.

(* --------------------------------------------------------------------- *)
(** ** [make_hollywood_movie] (lines 250-318)                             *)
(* --------------------------------------------------------------------- *)

Module Movie.

(** An image stack is read through its shape
    [(frames, height, width, channels)] only. *)
Record image_stack : Type := {
  n_frames : nat;
  height : nat;
  width : nat;
  n_channels : nat
}.

Definition size (a : image_stack) : nat :=
  (n_frames a * height a * width a * n_channels a)%nat.

(** What the function shows and writes: the figure, the image of a panel,
    the movie file, a frame of the movie. *)
Inductive event : Type :=
  | NewFigure
  | Imshow (panel : nat)
  | OpenMovie (filename : string)
  | GrabFrame (frame : nat).

(** A computation that draws: it extends the trace of events and returns or
    raises. *)
Definition movie (A : Type) : Type := list event -> result A * list event.

#[global] Instance movie_ret : MRet movie := fun A a trace => (Ok a, trace).
#[global] Instance movie_bind : MBind movie := fun A B k c trace =>
  match c trace with
  | (Ok a, trace') => k a trace'
  | (Raise e, trace') => (Raise e, trace')
  end.

Definition lift {A : Type} (r : result A) : movie A := fun trace => (r, trace).

Definition emit (e : event) : movie unit := fun trace => (Ok tt, trace ++ [e]).

(** [for x in xs: body(x)] *)
Fixpoint for_each (xs : list nat) (body : nat -> movie unit) : movie unit :=
  match xs with
  | [] => mret tt
  | x :: xs' => _ ← body x; for_each xs' body
  end.

(** [l[i]] *)
Definition item {A : Type} (l : list A) (i : nat) : result A :=
  match l !! i with
  | Some x => Ok x
  | None => Raise IndexError
  end.

(** [stack[i, :, :, 0]] *)
Definition frame_slice (a : image_stack) (i : nat) : result unit :=
  if (i <? n_frames a)%nat && (0 <? n_channels a)%nat then Ok tt else Raise IndexError.

(** [a.min()] and [a.max()]: a [ValueError] on an array without entries. *)
Definition extremum (a : image_stack) : result unit :=
  if (size a =? 0)%nat then Raise ValueError else Ok tt.

(** [manimation.writers['ffmpeg']] and the construction of the writer
    (lines 255-257): matplotlib raises a [RuntimeError] when the encoder is
    not available. *)
Definition get_writer (ffmpeg_available : bool) : result unit :=
  if ffmpeg_available then Ok tt else Raise RuntimeError.

(** Line 272: the default titles. *)
Definition default_titles (N_samples : nat) : list string :=
  "Real" :: map (fun j => "Decoded " +:+ pretty (j + 1)%nat) (seq 0 N_samples).

Section MakeMovie.
(** [np.percentile(stack, q)], which only matters by whether it
    raises. *)
Variable np_percentile : image_stack -> Q -> result unit.

Fixpoint percentiles (stacks : list image_stack) (q : Q) : result unit :=
  match stacks with
  | [] => Ok tt
  | stack :: stacks' => _ ← np_percentile stack q; percentiles stacks' q
  end.

(** Lines 264-269. *)
Definition colour_limits (same_vlim : bool) (real_image_stack : image_stack)
    (decoded_image_stacks : list image_stack) : result unit :=
  if same_vlim then
    _ ← extremum real_image_stack;
    extremum real_image_stack
  else
    _ ← extremum real_image_stack;
    _ ← percentiles decoded_image_stacks 0%Q;
    _ ← extremum real_image_stack;
    percentiles decoded_image_stacks (9999 # 100)%Q.

(** Lines 271-274. *)
Definition check_titles (titles : option (list string)) (N_samples : nat)
    : result (list string) :=
  match titles with
  | None => Ok (default_titles N_samples)
  | Some titles =>
      if (length titles =? N_samples + 1)%nat then Ok titles
      else Raise (AssertionError 274)
  end.

(** Lines 276-278: the width of the first decoded stack sizes the figure,
    through a division by [fig_dim_div]. *)
Definition figure_size (decoded_image_stacks : list image_stack) (N_samples : nat)
    : result unit :=
  first ← item decoded_image_stacks 0;
  if (width first * (N_samples + 1) =? 0)%nat then Raise ZeroDivisionError
  else Ok tt.

(** Lines 305-312. *)
Definition update_frame (real_image_stack : image_stack) (z_inf : list Z)
    (decoded_image_stacks : list image_stack) (z_smpls : list (list Z))
    (N_samples : nat) (i : nat) : movie unit :=
  _ ← lift (frame_slice real_image_stack i);
  _ ← lift (item z_inf i);
  for_each (seq 0 N_samples) (fun j =>
    stack ← lift (item decoded_image_stacks j);
    _ ← lift (frame_slice stack i);
    z_smpl ← lift (item z_smpls j);
    _ ← lift (item z_smpl i);
    mret tt).

(** Lines 278-318: the panels of the first frame, then the movie frame by
    frame. *)
Definition draw_and_write (titles : list string)
    (real_image_stack : image_stack) (z_inf : list Z)
    (decoded_image_stacks : list image_stack) (z_smpls : list (list Z))
    (filename : string) (N_samples : nat) : movie unit :=
  _ ← emit NewFigure;
  _ ← lift (frame_slice real_image_stack 0);
  _ ← emit (Imshow 0);
  _ ← lift (item z_inf 0);
  _ ← lift (item titles 0);
  _ ← for_each (seq 0 N_samples) (fun j =>
         stack ← lift (item decoded_image_stacks j);
         _ ← lift (frame_slice stack 0);
         _ ← emit (Imshow (j + 1));
         z_smpl ← lift (item z_smpls j);
         _ ← lift (item z_smpl 0);
         _ ← lift (item titles (j + 1));
         mret tt);
  _ ← emit (OpenMovie filename);
  for_each (seq 1 (n_frames real_image_stack - 1)) (fun i =>
    _ ← update_frame real_image_stack z_inf decoded_image_stacks z_smpls N_samples i;
    emit (GrabFrame i)).

Definition make_hollywood_movie (ffmpeg_available : bool) (K : Z)
    (real_image_stack : image_stack) (z_inf : list Z)
    (decoded_image_stacks : list image_stack) (z_smpls : list (list Z))
    (titles : option (list string)) (filename : string) (same_vlim : bool)
    : movie unit :=
  _ ← lift (get_writer ffmpeg_available);
  let N_samples := length decoded_image_stacks in
  _ ← lift (if (N_samples <? 10)%nat then Ok tt else Raise (AssertionError 261));
  _ ← lift (colour_limits same_vlim real_image_stack decoded_image_stacks);
  titles ← lift (check_titles titles N_samples);
  _ ← lift (figure_size decoded_image_stacks N_samples);
  draw_and_write titles real_image_stack z_inf decoded_image_stacks z_smpls
    filename N_samples.
End MakeMovie.

(** An outcome that is an [AssertionError], from whichever [assert]. *)
Definition raises_assertion {A : Type} (r : result A) : Prop :=
  exists line, r = Raise (AssertionError line).

(** A computation that never ends in an [AssertionError]. *)
Definition assertion_free {A : Type} (c : movie A) : Prop :=
  forall trace, ~ raises_assertion (fst (c trace)).

(** A percentile that never raises, and a small movie: three frames of
    4 by 6 pixels. *)
Definition percentile_ok (stack : image_stack) (q : Q) : result unit := Ok tt.

Definition clip : image_stack :=
  {| n_frames := 3; height := 4; width := 6; n_channels := 1 |}.

End Movie.

(* --------------------------------------------------------------------- *)
(** ** Further stand-ins for library code                                 *)
(* --------------------------------------------------------------------- *)

Module Standins.

(** A [sample] that, like the one of ssm, reads the object it is called on
    and leaves it alone: the path repeats the model's number plus the
    generator's state. *)
Definition steady_sample (m : nat) (g : nat) (T : nat) (input : list Z) (with_noise : bool)
    : (list nat * list Z) * nat * nat :=
  (repeat ((m + g) mod 3)%nat T, repeat (Z.of_nat g) T, m, (5 * g + 1) mod 16)%nat.

End Standins.

(* --------------------------------------------------------------------- *)
(** ** [fit_model] as a whole (lines 83-121)                              *)
(* --------------------------------------------------------------------- *)

Module FitModel.

Section Fit.
(** [P]: the parameters of one discrete state; [X]: the data of one trial;
    [U]: the inputs of one trial; [KW]: the model's keyword arguments; [LPS]:
    the log probabilities EM reports; [LL]: a log likelihood. *)
Context {P X U KW LPS LL : Type}.

(** Lines 95-103: construction, initialization and EM of ssm's [HMM], which
    leave a model with its per-state parameters and the log probabilities. *)
Variable hmm_fit :
  nat -> nat -> nat -> KW -> list X -> option (list U) -> result (list P * LPS).

(** [model.log_likelihood(data, inputs=inputs)] *)
Variable log_likelihood : list P -> list X -> option (list U) -> result LL.

(** [model.most_likely_states(x, u)] *)
Variable most_likely_states : list P -> X -> option U -> result (list nat).

Variable argsort : list Z -> list nat.

(** The dictionary the function returns. *)
Record fit_results : Type := {
  model : list P;
  train_states : list (list nat);
  lps : LPS;
  val_ll : LL;
  test_ll : LL
}.

(** Line 110:
    [[None] * len(training_data) if training_inputs is None else training_inputs] *)
Definition inputs_or_nones (training_data : list X) (training_inputs : option (list U))
    : list (option U) :=
  match training_inputs with
  | None => repeat None (length training_data)
  | Some inputs => map Some inputs
  end.

(** Lines 111 and 114:
    [[model.most_likely_states(x, u) for x, u in zip(training_data, training_inputs)]] *)
Fixpoint decode_all (model : list P) (trials : list (X * option U))
    : result (list (list nat)) :=
  match trials with
  | [] => Ok []
  | (x, u) :: trials' =>
      z ← most_likely_states model x u;
      zs ← decode_all model trials';
      mret (z :: zs)
  end.

Definition fit_model (num_discrete_states data_dimension input_dimension : nat)
    (model_kwargs : KW) (training_data validation_data test_data : list X)
    (training_inputs validation_inputs test_inputs : option (list U))
    : result fit_results :=
  '(model, lps) ← hmm_fit num_discrete_states data_dimension input_dimension
                     model_kwargs training_data training_inputs;
  val_ll ← log_likelihood model validation_data validation_inputs;
  test_ll ← log_likelihood model test_data test_inputs;
  let training_inputs := inputs_or_nones training_data training_inputs in
  train_states ← decode_all model (zip training_data training_inputs);
  '(usage, perm, model) ←
    Relabel.sort_states_by_usage argsort num_discrete_states train_states model;
  train_states ← decode_all model (zip training_data training_inputs);
  mret {| model := model; train_states := train_states; lps := lps;
          val_ll := val_ll; test_ll := test_ll |}.
End Fit.

(** Stand-ins for ssm: a fit that returns one parameter per state, a
    likelihood that counts the trials, and a decoder that reads the states
    off the data. *)
Definition toy_fit (K D M : nat) (kw : unit) (data : list (list nat))
    (inputs : option (list Z)) : result (list nat * nat) :=
  Ok (seq 0 K, length data).

Definition toy_likelihood (model : list nat) (data : list (list nat))
    (inputs : option (list Z)) : result Z :=
  Ok (- Z.of_nat (length data))%Z.

Definition toy_decode (model : list nat) (x : list nat) (u : option Z)
    : result (list nat) :=
  Ok (map (fun o => o mod length model)%nat x).

End FitModel.

(* --------------------------------------------------------------------- *)
(** ** [plot_validation_likelihoods] (lines 164-176)                      *)
(* --------------------------------------------------------------------- *)

Module ValidationPlot.

(** What the function can raise: the [KeyError] of a name without a line
    style, which is its own, and whatever matplotlib raises. *)
Inductive plot_exn : Type :=
  | KeyError (key : string)
  | Raised (e : pyexn).

(** What the function draws. *)
Inductive plot_event : Type :=
  | Figure
  | PlotLine (Ks : list nat) (val_lls : list Preprocess.npfloat)
      (ls : string) (label : string)
  | Legend
  | XLabel (text : string)
  | YLabel (text : string).

(** The results of one model: for each number of states [K] the ['val_ll']
    entry of the dictionary [fit_model] returned; the other entries are not
    read. *)
Definition model_results : Type := gmap nat Q.

(** [sorted(model_results.keys())] *)
Definition sorted_keys (results : model_results) : list nat :=
  merge_sort Nat.le (map fst (map_to_list results)).

(** [[model_results[K]['val_ll'] for K in Ks]] divided by [T_val]. *)
Definition scaled_likelihoods (results : model_results) (Ks : list nat) (T_val : Q)
    : list Preprocess.npfloat :=
  map (fun K => Preprocess.np_divide (default 0%Q (results !! K)) T_val) Ks.

Section Plot.
(** [plt.plot(Ks, val_lls, ls=ls, marker='o', alpha=1, label=label)]:
    matplotlib refuses, for one, a line style it does not know. *)
Variable plt_plot : list nat -> list Preprocess.npfloat -> string -> string -> result unit.

(** The loop over [all_results.items()], in the order of the dictionary.
    The keyword argument [ls=line_styles[model_name]] is evaluated before
    [plt.plot] is called. *)
Fixpoint plot_models (items : list (string * model_results))
    (line_styles : gmap string string) (T_val : Q) (trace : list plot_event)
    : option plot_exn * list plot_event :=
  match items with
  | [] => (None, trace)
  | (model_name, results) :: items' =>
      let Ks := sorted_keys results in
      let val_lls := scaled_likelihoods results Ks T_val in
      match line_styles !! model_name with
      | None => (Some (KeyError model_name), trace)
      | Some ls =>
          match plt_plot Ks val_lls ls model_name with
          | Raise e => (Some (Raised e), trace)
          | Ok _ =>
              plot_models items' line_styles T_val
                (trace ++ [PlotLine Ks val_lls ls model_name])
          end
      end
  end.

(** The function: [inl] an exception, [inr] the figure returned. *)
Definition plot_validation_likelihoods (all_results : list (string * model_results))
    (line_styles : gmap string string) (T_val : Q)
    : (plot_exn + unit) * list plot_event :=
  match plot_models all_results line_styles T_val [Figure] with
  | (Some e, trace) => (inl e, trace)
  | (None, trace) =>
      (inr tt,
       trace ++ [Legend; XLabel "num. discrete states"; YLabel "validation log lkhd."])
  end.

(** A model the loop gets past: its name has a line style, and matplotlib
    draws the line. *)
Definition plottable (line_styles : gmap string string) (T_val : Q)
    (item : string * model_results) : Prop :=
  exists ls,
    line_styles !! item.1 = Some ls
    /\ plt_plot (sorted_keys item.2)
         (scaled_likelihoods item.2 (sorted_keys item.2) T_val) ls item.1
       = Ok tt.
End Plot.

(** The defaults of the signature: [line_styles={}, T_val=1]. *)
Definition default_line_styles : gmap string string := ∅.
Definition default_T_val : Q := 1%Q.

(** A stand-in for [plt.plot] that knows the four line styles written with
    dashes and dots. *)
Definition plot_dashes (Ks : list nat) (val_lls : list Preprocess.npfloat)
    (ls label : string) : result unit :=
  if bool_decide (ls ∈ ["-"; "--"; "-."; ":"]) then Ok tt else Raise ValueError.

End ValidationPlot.

(* --------------------------------------------------------------------- *)
(** ** [plot_sampled_latents] (lines 179-218)                             *)
(* --------------------------------------------------------------------- *)

Module LatentsPlot.

(** What the function draws: the figure, the line of one sample in one
    dimension, the band of two standard deviations and the line of the
    training data in one dimension, and the decorations. *)
Inductive plot_event : Type :=
  | Figure
  | SampleLine (sample dim : nat)
  | Band (dim : nat)
  | DataLine (dim : nat)
  | Legend
  | XLabel (text : string)
  | YTicks (dims : nat)
  | YLabel (text : string).

Definition is_sample_line (e : plot_event) : bool :=
  match e with
  | SampleLine _ _ => true
  | _ => false
  end.

(** [x_smpls[i][:, d]], an array being read through its shape
    [(time steps, dimensions)]. *)
Definition column (x_smpls : list (nat * nat)) (i d : nat) : result unit :=
  match x_smpls !! i with
  | None => Raise IndexError
  | Some (_, D_i) => if (d <? D_i)%nat then Ok tt else Raise IndexError
  end.

(** Lines 197-198: [for i in i_plot: plt.plot(x_smpls[i][:, d] - spc * d, ...)] *)
Fixpoint plot_samples (i_plot : list nat) (x_smpls : list (nat * nat)) (d : nat)
    (trace : list plot_event) : result unit * list plot_event :=
  match i_plot with
  | [] => (Ok tt, trace)
  | i :: i_plot' =>
      match column x_smpls i d with
      | Raise e => (Raise e, trace)
      | Ok _ => plot_samples i_plot' x_smpls d (trace ++ [SampleLine i d])
      end
  end.

Section Plot.
(** [G]: the state of numpy's global generator. *)
Context {G : Type}.

(** Lines 183-184: [np.mean(x_smpls, axis=0)] and [np.std(x_smpls, axis=0)],
    which numpy refuses for samples that do not stack. *)
Variable np_mean_std : list (nat * nat) -> result unit.

(** Lines 201-204: the columns [d] of mean and standard deviation and
    [plt.fill_between] over [np.arange(T)], which matplotlib refuses when the
    lengths do not fit. *)
Variable plt_fill_between : nat -> list (nat * nat) -> nat -> result unit.

(** [np.random.choice(n, size=size, replace=False)] *)
Variable np_random_choice : G -> nat -> nat -> list nat * G.

(** Lines 192-195: all samples when there are fewer than 10, else 10 of
    them drawn at random. *)
Definition choose_samples (n : nat) (g : G) : list nat * G :=
  if (n <? 10)%nat then (seq 0 n, g) else np_random_choice g n 10.

(** Lines 189-209: the loop over the dimensions. *)
Fixpoint plot_dims (T : nat) (dims : list nat) (x_smpls : list (nat * nat)) (g : G)
    (trace : list plot_event) : result unit * list plot_event * G :=
  match dims with
  | [] => (Ok tt, trace, g)
  | d :: dims' =>
      match column x_smpls 0 d with
      | Raise e => (Raise e, trace, g)
      | Ok _ =>
          let trace := trace ++ [SampleLine 0 d] in
          let '(i_plot, g) := choose_samples (length x_smpls) g in
          match plot_samples i_plot x_smpls d trace with
          | (Raise e, trace) => (Raise e, trace, g)
          | (Ok _, trace) =>
              match plt_fill_between T x_smpls d with
              | Raise e => (Raise e, trace, g)
              | Ok _ => plot_dims T dims' x_smpls g (trace ++ [Band d; DataLine d])
              end
          end
      end
  end.

(** The function, on the shape [(T, D)] of the training data and the shapes
    of the samples.  [training_data.max()] is a [ValueError] on an array
    without entries. *)
Definition plot_sampled_latents (training_data : nat * nat)
    (x_smpls : list (nat * nat)) (g : G)
    : result unit * list plot_event * G :=
  let '(T, D) := training_data in
  match np_mean_std x_smpls with
  | Raise e => (Raise e, [], g)
  | Ok _ =>
      if (T * D =? 0)%nat then (Raise ValueError, [], g)
      else
        match plot_dims T (seq 0 D) x_smpls g [Figure] with
        | (Raise e, trace, g) => (Raise e, trace, g)
        | (Ok _, trace, g) =>
            (Ok tt,
             trace ++ [Legend; XLabel "time"; YTicks D; YLabel "continuous latent state"],
             g)
        end
  end.
End Plot.

(** Stand-ins for the libraries.  Mean and standard deviation of samples of
    one shape, and of no sample at all (numpy then warns and returns nan). *)
Definition mean_of_equal_shapes (x_smpls : list (nat * nat)) : result unit :=
  match x_smpls with
  | [] => Ok tt
  | (T0, D0) :: rest =>
      if forallb (fun s => (fst s =? T0)%nat && (snd s =? D0)%nat) rest
      then Ok tt else Raise ValueError
  end.

(** A band over as many time steps as the samples have. *)
Definition band_of_equal_lengths (T : nat) (x_smpls : list (nat * nat)) (d : nat)
    : result unit :=
  match x_smpls with
  | [] => Raise IndexError
  | (T0, _) :: _ => if (T0 =? T)%nat then Ok tt else Raise ValueError
  end.

(** The random choice: the first [size] indices, the generator stepped
    once. *)
Definition first_indices (g : nat) (n size : nat) : list nat * nat :=
  (seq 0 size, S g).

End LatentsPlot.

(* ===================================================================== *)
(** * Part II: the properties                                             *)
(* ===================================================================== *)

(** ** Properties of [cached] *)

Section PathFacts.
Import Cache.

Lemma append_cons (x : ascii) (a b : string) :
  String x a +:+ b = String x (a +:+ b).
Proof. reflexivity. Qed.

Lemma chars_append (a b : string) :
  list_ascii_of_string (a +:+ b)
  = list_ascii_of_string a ++ list_ascii_of_string b.
Proof.
  induction a as [|x a IH]; [ reflexivity | ].
  rewrite append_cons. simpl. now rewrite IH.
Qed.

Lemma append_assoc (a b c : string) : (a +:+ b) +:+ c = a +:+ (b +:+ c).
Proof.
  induction a as [|x a IH]; [ reflexivity | ].
  rewrite !append_cons. now rewrite IH.
Qed.

Lemma starts_with_app (p l : list ascii) : starts_with p (p ++ l) = true.
Proof.
  induction p as [|x p IH]; simpl; [ reflexivity | ].
  now rewrite Ascii.eqb_refl, IH.
Qed.

Lemma endswith_append (s suffix : string) : endswith (s +:+ suffix) suffix = true.
Proof.
  unfold endswith. rewrite chars_append, rev_app_distr. apply starts_with_app.
Qed.

(** A directory prefix, empty or closed by a separator, does not change
    whether a path ends in [".pkl"]: the suffix holds no separator. *)
Lemma pkl_behind_separator (l r : list ascii) :
  r = [] \/ (exists r', r = "/"%char :: r') ->
  starts_with (rev (list_ascii_of_string ".pkl")) (l ++ r)
  = starts_with (rev (list_ascii_of_string ".pkl")) l.
Proof.
  intros [-> | [r' ->]]; [ now rewrite app_nil_r | ].
  change (rev (list_ascii_of_string ".pkl"))
    with ["l"%char; "k"%char; "p"%char; "."%char].
  destruct l as [|a [|b [|c [|d l]]]]; cbn [starts_with app];
    repeat match goal with
           | |- context [Ascii.eqb ?x ?y] => is_var y; destruct (Ascii.eqb x y)
           end; reflexivity.
Qed.

Lemma endswith_separator (pre : string) :
  endswith pre "/" = true ->
  exists r', rev (list_ascii_of_string pre) = "/"%char :: r'.
Proof.
  unfold endswith. change (rev (list_ascii_of_string "/")) with ["/"%char].
  destruct (rev (list_ascii_of_string pre)) as [|c r]; [ discriminate | ].
  cbn [starts_with]. rewrite andb_true_r. intros H. apply Ascii.eqb_eq in H. subst c. now exists r.
Qed.

Lemma endswith_pkl_prefixed (pre name : string) :
  pre = "" \/ endswith pre "/" = true ->
  endswith (pre +:+ name) ".pkl" = endswith name ".pkl".
Proof.
  intros H. unfold endswith. rewrite chars_append, rev_app_distr.
  apply pkl_behind_separator.
  destruct H as [-> | H]; [ now left | right; now apply endswith_separator ].
Qed.

(** [os.path.join] puts a prefix in front of its last component. *)
Lemma os_path_join_prefix (a b : string) :
  exists pre, os_path_join a b = pre +:+ b
              /\ (pre = "" \/ endswith pre "/" = true).
Proof.
  unfold os_path_join.
  destruct (startswith b "/"); [ exists ""; auto | ].
  destruct (String.eqb a "") eqn:Ha; simpl.
  - apply String.eqb_eq in Ha. subst a. exists "". auto.
  - destruct (endswith a "/") eqn:He.
    + exists a. auto.
    + exists (a +:+ "/"). split; [ now rewrite append_assoc | ].
      right. apply endswith_append.
Qed.

Lemma endswith_pkl_join (a b : string) :
  endswith (os_path_join a b) ".pkl" = endswith b ".pkl".
Proof.
  destruct (os_path_join_prefix a b) as (pre & -> & Hpre).
  now apply endswith_pkl_prefixed.
Qed.

Lemma startswith_append (b suffix : string) :
  startswith (b +:+ ".pkl") "/" = startswith b "/".
Proof. destruct b; reflexivity. Qed.

Lemma os_path_join_append (a b : string) :
  os_path_join a (b +:+ ".pkl") = os_path_join a b +:+ ".pkl".
Proof.
  unfold os_path_join. rewrite (startswith_append b ".pkl").
  destruct (startswith b "/"); [ reflexivity | ].
  destruct (String.eqb a "" || endswith a "/"); now rewrite !append_assoc.
Qed.

Lemma results_file_plain (output_dir name : string) :
  endswith name ".pkl" = false ->
  results_file output_dir name = os_path_join output_dir name +:+ ".pkl".
Proof. intros H. unfold results_file. now rewrite endswith_pkl_join, H. Qed.

Lemma results_file_pkl (output_dir name : string) :
  endswith name ".pkl" = true ->
  results_file output_dir name = os_path_join output_dir name.
Proof. intros H. unfold results_file. now rewrite endswith_pkl_join, H. Qed.

Lemma results_file_add_suffix (output_dir name : string) :
  endswith name ".pkl" = false ->
  results_file output_dir (name +:+ ".pkl") = results_file output_dir name.
Proof.
  intros H. rewrite (results_file_plain _ _ H).
  rewrite results_file_pkl by apply endswith_append.
  apply os_path_join_append.
Qed.
End PathFacts.

Section CacheProperties.
Import Cache.
Context {R A : Type}.
Variable pickle_dumps : R -> option string.
Variable pickle_loads : string -> option R.
Hypothesis pickle_roundtrip :
  forall r data, pickle_dumps r = Some data -> pickle_loads data = Some r.

Lemma func_wrapper_hit output_dir results_name (func : A -> result R) args w data r :
  nodes (fs w) !! results_file output_dir results_name = Some (File data) ->
  pickle_loads data = Some r ->
  func_wrapper pickle_dumps pickle_loads output_dir results_name func args w
  = (Ok r, w).
Proof.
  intros Hnode Hload. unfold func_wrapper, os_path_exists, read_file.
  rewrite Hnode, Hload. reflexivity.
Qed.

(** A call that returns leaves a loadable pickle of its result at the
    entry's path. *)
Lemma func_wrapper_persists output_dir results_name (func : A -> result R) args w r w' :
  func_wrapper pickle_dumps pickle_loads output_dir results_name func args w
  = (Ok r, w') ->
  (exists data,
      nodes (fs w') !! results_file output_dir results_name = Some (File data)
      /\ pickle_loads data = Some r)
  /\ calls w' <= S (calls w).
Proof.
  unfold func_wrapper, os_path_exists, read_file, open_wb, write_file.
  destruct (nodes (fs w) !! results_file output_dir results_name)
    as [[c|]|] eqn:Hnode; simpl.
  - destruct (pickle_loads c) eqn:Hload; intros [= <- <-].
    split; [ exists c; auto | lia ].
  - intros [= ].
  - destruct (func args) as [res|]; [ | intros [= ] ].
    rewrite Hnode.
    destruct (creatable (fs w) _); [ | intros [= ] ].
    destruct (pickle_dumps res) as [data|] eqn:Hdump; intros [= <- <-]; simpl.
    split; [ | lia ].
    exists data. split; [ apply lookup_insert_eq | eauto ].
Qed.



(** C10. [cached] appends [".pkl"] to the entry's path exactly when
    [results_name] does not already end in [".pkl"]; hence, for every
    [output_dir], the keys [(output_dir, "x")] and [(output_dir, "x.pkl")]
    name the same cache entry, and a result persisted under one is the
    result returned under the other. *)
Theorem cached_pkl_suffix (output_dir : string) :
  (forall name,
      (endswith name ".pkl" = false ->
       results_file output_dir name = os_path_join output_dir name +:+ ".pkl")
      /\ (endswith name ".pkl" = true ->
          results_file output_dir name = os_path_join output_dir name))
  /\ results_file output_dir "x" = results_file output_dir "x.pkl"
  /\ (forall (f g : A -> result R) a b w0 r w1,
        func_wrapper pickle_dumps pickle_loads output_dir "x" f a w0 = (Ok r, w1) ->
        func_wrapper pickle_dumps pickle_loads output_dir "x.pkl" g b w1 = (Ok r, w1))
  /\ (forall (f g : A -> result R) a b w0 r w1,
        func_wrapper pickle_dumps pickle_loads output_dir "x.pkl" f a w0 = (Ok r, w1) ->
        func_wrapper pickle_dumps pickle_loads output_dir "x" g b w1 = (Ok r, w1)).
Proof.
  assert (Hsame : results_file output_dir "x.pkl" = results_file output_dir "x")
    by (apply (results_file_add_suffix output_dir "x"); reflexivity).
  split; [ | split; [ | split ] ].
  - intros name. split; [ apply results_file_plain | apply results_file_pkl ].
  - now rewrite Hsame.
  - intros f g a b w0 r w1 H.
    destruct (func_wrapper_persists _ _ _ _ _ _ _ H) as [(data & Hnode & Hload) _].
    apply func_wrapper_hit with (data := data); [ | assumption ].
    now rewrite Hsame.
  - intros f g a b w0 r w1 H.
    destruct (func_wrapper_persists _ _ _ _ _ _ _ H) as [(data & Hnode & Hload) _].
    apply func_wrapper_hit with (data := data); [ | assumption ].
    now rewrite <- Hsame.
Qed.
End CacheProperties.

Lemma unary_length (n : nat) : String.length (Cache.unary n) = n.
Proof. induction n as [|n IH]; simpl; [ reflexivity | now rewrite IH ]. Qed.

Lemma unary_roundtrip (r : nat) (data : string) :
  Cache.unary_dumps r = Some data -> Cache.unary_loads data = Some r.
Proof.
  unfold Cache.unary_dumps, Cache.unary_loads. intros [= <-].
  now rewrite unary_length.
Qed.



(** C10 at a concrete directory, with the unary pickle. *)
Lemma cached_pkl_suffix_witness :
  Cache.results_file "out" "x" = Cache.results_file "out" "x.pkl"
  /\ Cache.results_file "out" "x" = "out/x.pkl".
Proof.
  split; [ | reflexivity ].
  apply (cached_pkl_suffix (A := nat) Cache.unary_dumps Cache.unary_loads
           unary_roundtrip "out").
Defined.


(** ** Properties of the state relabelling *)

Section SortingFacts.
Import Relabel.

Lemma insert_from_right_perm v vi l :
  Permutation (insert_from_right v vi l) (vi :: l).
Proof.
  induction l as [|k l IH]; simpl; [ reflexivity | ].
  destruct (key v vi <? key v k)%Z; [ | reflexivity ].
  rewrite IH. apply perm_swap.
Qed.

Lemma insert_from_right_sorted v vi l :
  StronglySorted (flip (lex_lt v)) l ->
  Forall (fun x => (x < vi)%nat) l ->
  StronglySorted (flip (lex_lt v)) (insert_from_right v vi l).
Proof.
  induction l as [|k l IH]; simpl; intros Hs Hlt.
  - repeat constructor.
  - apply StronglySorted_inv in Hs as [Hs Hk].
    apply Forall_cons_1 in Hlt as [Hkv Hlt].
    destruct (key v vi <? key v k)%Z eqn:Hcmp.
    + apply Z.ltb_lt in Hcmp. constructor; [ now apply IH | ].
      eapply Permutation_Forall; [ symmetry; apply insert_from_right_perm | ].
      constructor; [ left; exact Hcmp | exact Hk ].
    + apply Z.ltb_ge in Hcmp.
      constructor; [ now constructor | ].
      assert (Hall : Forall (fun x => (key v x <= key v k)%Z /\ (x < vi)%nat) (k :: l)).
      { constructor; [ split; [ lia | exact Hkv ] | ].
        rewrite Forall_forall in Hk, Hlt. apply Forall_forall. intros x Hx.
        split; [ | now apply Hlt ].
        destruct (Hk x Hx) as [H | [H _]]; lia. }
      eapply Forall_impl; [ exact Hall | ].
      intros x [Hx1 Hx2]. unfold flip, lex_lt.
      destruct (Z.eq_dec (key v x) (key v vi)); [ right; split; assumption | left; lia ].
Qed.

Lemma fold_insert_sorted v m :
  forall s acc,
    StronglySorted (flip (lex_lt v)) acc ->
    Forall (fun x => (x < s)%nat) acc ->
    let out := fold_left (fun sorted_rev vi => insert_from_right v vi sorted_rev)
                 (seq s m) acc in
    StronglySorted (flip (lex_lt v)) out /\ Permutation out (seq s m ++ acc).
Proof.
  induction m as [|m IH]; intros s acc Hs Hlt; simpl.
  - split; [ exact Hs | reflexivity ].
  - destruct (IH (S s) (insert_from_right v s acc)) as [H1 H2].
    + now apply insert_from_right_sorted.
    + eapply Permutation_Forall; [ symmetry; apply insert_from_right_perm | ].
      constructor; [ lia | ]. eapply Forall_impl; [ exact Hlt | ].
      intros x Hx. simpl in Hx. lia.
    + split; [ exact H1 | ].
      rewrite H2, insert_from_right_perm. symmetry. apply Permutation_middle.
Qed.

Lemma StronglySorted_rev_flip {A} (R : relation A) (l : list A) :
  StronglySorted (flip R) l -> StronglySorted R (rev l).
Proof.
  induction 1 as [|x l Hs IH Hx]; simpl; [ constructor | ].
  apply StronglySorted_app_2; [ | exact IH | repeat constructor ].
  intros x1 x2 H1 H2. apply list_elem_of_In in H1. apply in_rev in H1.
  apply list_elem_of_In in H2. destruct H2 as [<- | []].
  rewrite Forall_forall in Hx. apply Hx. now apply list_elem_of_In.
Qed.

(** Insertion sort of the identity index array: sorted by key, ties by
    index, and a permutation of the indices. *)
Lemma argsort_insertion_lex v :
  StronglySorted (lex_lt v) (argsort_insertion v)
  /\ Permutation (argsort_insertion v) (seq 0 (length v)).
Proof.
  unfold argsort_insertion, insertion_sort.
  destruct (fold_insert_sorted v (length v) 0 []) as [H1 H2];
    [ constructor | constructor | ].
  split; [ now apply StronglySorted_rev_flip | ].
  rewrite <- Permutation_rev, H2. now rewrite app_nil_r.
Qed.

Lemma StronglySorted_lookup {A} (R : relation A) (l : list A) a b x y :
  StronglySorted R l -> (a < b)%nat ->
  l !! a = Some x -> l !! b = Some y -> R x y.
Proof.
  intros Hs. revert a b. induction Hs as [|z l Hs IH Hz]; intros a b Hab Ha Hb.
  - discriminate.
  - destruct b as [|b]; [ lia | ]. simpl in Hb.
    destruct a as [|a]; simpl in Ha.
    + injection Ha as <-. rewrite Forall_forall in Hz. apply Hz.
      eapply list_elem_of_lookup_2. exact Hb.
    + apply (IH a b); [ lia | assumption | assumption ].
Qed.

Lemma key_opp usage i : key (map Z.opp usage) i = (- key usage i)%Z.
Proof. unfold key. change 0%Z with (Z.opp 0) at 1. apply map_nth. Qed.

Lemma lex_sorted_is_argsort v p :
  StronglySorted (lex_lt v) p -> Permutation p (seq 0 (length v)) ->
  is_argsort v p.
Proof.
  intros Hs Hp. split; [ exact Hp | ].
  apply StronglySorted_Sorted.
  apply (StronglySorted_fmap (key v) (lex_lt v) Z.le); [ | exact Hs ].
  intros x y [H | [H _]]; lia.
Qed.

Lemma argsort_insertion_is_argsort v : is_argsort v (argsort_insertion v).
Proof.
  destruct (argsort_insertion_lex v). now apply lex_sorted_is_argsort.
Qed.

Lemma StronglySorted_weaken {A} (R1 R2 : relation A) (l : list A) :
  (forall x y, R1 x y -> R2 x y) -> StronglySorted R1 l -> StronglySorted R2 l.
Proof.
  intros HR. induction 1 as [|x l Hs IH Hx]; constructor; [ exact IH | ].
  eapply Forall_impl; [ exact Hx | ]. intros y. apply HR.
Qed.

(** Sorting the negated keys stably and reading the result backwards sorts
    the keys, with ties in the reverse order of their indices. *)
Lemma argsort_ties_reversed_is_argsort v : is_argsort v (argsort_ties_reversed v).
Proof.
  unfold argsort_ties_reversed.
  destruct (argsort_insertion_lex (map Z.opp v)) as [Hlex Hperm].
  rewrite length_map in Hperm. split.
  - now rewrite <- Permutation_rev.
  - apply StronglySorted_Sorted.
    apply (StronglySorted_fmap (key v) (fun x y => (key v x <= key v y)%Z) Z.le);
      [ auto | ].
    apply StronglySorted_rev_flip.
    eapply StronglySorted_weaken; [ | exact Hlex ].
    intros x y H. unfold flip. unfold lex_lt in H. rewrite !key_opp in H. lia.
Qed.
End SortingFacts.

Section RelabelProperties.
Import Relabel.
Context {P : Type}.

Lemma np_take_returns {A : Type} (arr : list A) (perm : list nat) :
  Forall (fun i => (i < length arr)%nat) perm ->
  exists xs, np_take arr perm = Ok xs /\ length xs = length perm.
Proof.
  induction 1 as [|i perm Hi _ (xs & IH & Hlen)]; simpl.
  - now exists [].
  - destruct (lookup_lt_is_Some_2 arr i Hi) as [x ->].
    rewrite IH. exists (x :: xs). simpl. now rewrite Hlen.
Qed.

Lemma np_take_keys (v : list Z) (perm : list nat) :
  Forall (fun i => (i < length v)%nat) perm ->
  np_take v perm = Ok (map (key v) perm).
Proof.
  induction 1 as [|i perm Hi _ IH]; simpl; [ reflexivity | ].
  destruct (lookup_lt_is_Some_2 v i Hi) as [x Hx].
  rewrite Hx, IH. unfold key at 2. now rewrite (nth_lookup_Some _ _ _ _ Hx).
Qed.

Lemma permutation_indices (p : list nat) (n : nat) :
  Permutation p (seq 0 n) -> Forall (fun i => (i < n)%nat) p.
Proof.
  intros Hp. apply Forall_forall. intros i Hi.
  apply list_elem_of_In in Hi. apply (Permutation_in _ Hp) in Hi.
  apply in_seq in Hi. lia.
Qed.

Lemma bincount_length (x : list nat) (K : nat) :
  Forall (fun z => (z < K)%nat) x -> length (bincount x K) = K.
Proof.
  intros Hx. unfold bincount. rewrite length_map, length_seq.
  destruct x as [|z x]; [ reflexivity | ].
  assert (list_max (z :: x) < K)%nat by (apply list_max_lt; [ discriminate | exact Hx ]).
  lia.
Qed.

(** The relabelling goes through for decoded paths over [K] states and a
    sorting routine that returns a permutation of the states. *)
Lemma sort_states_by_usage_returns (argsort : list Z -> list nat)
    (K : nat) (train_states : list (list nat)) (model : list P) :
  train_states <> [] ->
  Forall (Forall (fun z => (z < K)%nat)) train_states ->
  length model = K ->
  let usage := bincount (concat train_states) K in
  Permutation (argsort (map Z.opp usage)) (seq 0 K) ->
  length usage = K
  /\ exists model',
      sort_states_by_usage argsort K train_states model
      = Ok (usage, argsort (map Z.opp usage), model').
Proof.
  intros Hne Hstates Hmodel usage Hperm.
  split; [ apply bincount_length; now apply Forall_concat | ].
  unfold sort_states_by_usage, np_concatenate.
  destruct train_states as [|t ts]; [ contradiction | ].
  cbn [mbind result_bind]. fold usage. unfold permute.
  destruct (np_take_returns model (argsort (map Z.opp usage))) as (model' & Hm & _).
  { rewrite Hmodel. now apply permutation_indices. }
  rewrite Hm. now exists model'.
Qed.

Section AnySortingKind.
Variable argsort : list Z -> list nat.
Hypothesis argsort_spec : forall v, is_argsort v (argsort v).

(** C2. After [fit_model] relabels the states by usage (permuting with
    the argsort of the negated occupancy counts), the occupancy counts
    read off in the new state order form a non-increasing sequence: for
    every number of states [K], every non-empty list of decoded state
    paths over those states and every model with [K] states, the
    relabelling returns, its permutation lists every state once, and
    [usage[perm]] is sorted by [>=]. *)
Theorem usage_non_increasing_after_relabel
    (K : nat) (train_states : list (list nat)) (model : list P) :
  train_states <> [] ->
  Forall (Forall (fun z => (z < K)%nat)) train_states ->
  length model = K ->
  exists usage perm model' occupancy,
    sort_states_by_usage argsort K train_states model = Ok (usage, perm, model')
    /\ usage = bincount (concat train_states) K
    /\ Permutation perm (seq 0 K)
    /\ np_take usage perm = Ok occupancy
    /\ Sorted Z.ge occupancy.
Proof.
  intros Hne Hstates Hmodel.
  set (usage := bincount (concat train_states) K).
  assert (Hlen : length usage = K)
    by (apply bincount_length; now apply Forall_concat).
  destruct (argsort_spec (map Z.opp usage)) as [Hperm Hsorted].
  rewrite length_map, Hlen in Hperm.
  destruct (sort_states_by_usage_returns argsort K train_states model
              Hne Hstates Hmodel Hperm) as (_ & model' & Hrun).
  exists usage, (argsort (map Z.opp usage)), model',
    (map (key usage) (argsort (map Z.opp usage))).
  split; [ exact Hrun | ]. split; [ reflexivity | ]. split; [ exact Hperm | ].
  split.
  - apply np_take_keys. rewrite Hlen. now apply permutation_indices.
  - replace (map (key usage) (argsort (map Z.opp usage)))
      with (map Z.opp (map (key (map Z.opp usage)) (argsort (map Z.opp usage)))).
    + apply (Sorted_fmap Z.opp Z.le Z.ge); [ intros x y; lia | exact Hsorted ].
    + rewrite map_map. apply map_ext. intros i. rewrite key_opp. lia.
Qed.

(** The occupancy counts read in the order of the permutation, any two of
    them compared. *)
Lemma usage_sorted_after_argsort (usage : list Z) :
  StronglySorted Z.ge (map (key usage) (argsort (map Z.opp usage))).
Proof.
  destruct (argsort_spec (map Z.opp usage)) as [_ Hsorted].
  apply Sorted.Sorted_StronglySorted; [ intros x y z; lia | ].
  replace (map (key usage) (argsort (map Z.opp usage)))
    with (map Z.opp (map (key (map Z.opp usage)) (argsort (map Z.opp usage)))).
  - apply (Sorted_fmap Z.opp Z.le Z.ge); [ intros x y; lia | exact Hsorted ].
  - rewrite map_map. apply map_ext. intros i. rewrite key_opp. lia.
Qed.

(** C3, as the code has it.  [np.argsort] is called with numpy's default
    kind, which is not stable, so nothing fixes the order of tied states.
    What every sorting kind gives: the relabelling returns, and states with
    equal total occupancy get consecutive new labels, that is, every state
    placed between two states of equal occupancy has that occupancy too. *)
Theorem tied_states_get_consecutive_labels
    (K : nat) (train_states : list (list nat)) (model : list P) :
  train_states <> [] ->
  Forall (Forall (fun z => (z < K)%nat)) train_states ->
  length model = K ->
  exists usage perm model',
    sort_states_by_usage argsort K train_states model = Ok (usage, perm, model')
    /\ usage = bincount (concat train_states) K
    /\ Permutation perm (seq 0 K)
    /\ forall a c b i k j,
         (a < c < b)%nat ->
         perm !! a = Some i -> perm !! c = Some k -> perm !! b = Some j ->
         key usage i = key usage j ->
         key usage k = key usage i.
Proof.
  intros Hne Hstates Hmodel.
  set (usage := bincount (concat train_states) K).
  assert (Hlen : length usage = K)
    by (apply bincount_length; now apply Forall_concat).
  destruct (argsort_spec (map Z.opp usage)) as [Hperm _].
  rewrite length_map, Hlen in Hperm.
  destruct (sort_states_by_usage_returns argsort K train_states model
              Hne Hstates Hmodel Hperm) as (_ & model' & Hrun).
  exists usage, (argsort (map Z.opp usage)), model'.
  split; [ exact Hrun | ]. split; [ reflexivity | ]. split; [ exact Hperm | ].
  intros a c b i k j [Hac Hcb] Ha Hc Hb Htie.
  pose proof (usage_sorted_after_argsort usage) as Hs.
  assert (Hik : (key usage i >= key usage k)%Z).
  { apply (StronglySorted_lookup Z.ge _ a c _ _ Hs Hac);
      rewrite list_lookup_fmap; [ now rewrite Ha | now rewrite Hc ]. }
  assert (Hkj : (key usage k >= key usage j)%Z).
  { apply (StronglySorted_lookup Z.ge _ c b _ _ Hs Hcb);
      rewrite list_lookup_fmap; [ now rewrite Hc | now rewrite Hb ]. }
  lia.
Qed.
End AnySortingKind.

End RelabelProperties.

(** C2 at a concrete fit: three states, two decoded trials, any stable
    insertion argsort; the occupancies 2, 1, 4 are relabelled to 4, 2, 1. *)
Lemma usage_non_increasing_after_relabel_witness :
  exists usage perm model' occupancy,
    Relabel.sort_states_by_usage Relabel.argsort_insertion 3
      [[2; 0; 2]; [1; 2; 0; 2]] ["a"; "b"; "c"] = Ok (usage, perm, model')
    /\ usage = Relabel.bincount (concat [[2; 0; 2]; [1; 2; 0; 2]]) 3
    /\ Permutation perm (seq 0 3)
    /\ Relabel.np_take usage perm = Ok occupancy
    /\ Sorted Z.ge occupancy.
Proof.
  apply (usage_non_increasing_after_relabel Relabel.argsort_insertion
           argsort_insertion_is_argsort 3 [[2; 0; 2]; [1; 2; 0; 2]] ["a"; "b"; "c"]).
  - discriminate.
  - repeat constructor.
  - reflexivity.
Defined.

(** C3 (amended) at a concrete fit with two ties: states 0 and 1 are
    visited once each, states 2 and 3 twice each. *)
Lemma tied_states_get_consecutive_labels_witness :
  exists usage perm model',
    Relabel.sort_states_by_usage Relabel.argsort_ties_reversed 4
      [[2; 3; 2; 3; 0; 1]] ["a"; "b"; "c"; "d"] = Ok (usage, perm, model')
    /\ usage = Relabel.bincount (concat [[2; 3; 2; 3; 0; 1]]) 4
    /\ Permutation perm (seq 0 4)
    /\ forall a c b i k j,
         (a < c < b)%nat ->
         perm !! a = Some i -> perm !! c = Some k -> perm !! b = Some j ->
         Relabel.key usage i = Relabel.key usage j ->
         Relabel.key usage k = Relabel.key usage i.
Proof.
  apply (tied_states_get_consecutive_labels Relabel.argsort_ties_reversed
           argsort_ties_reversed_is_argsort 4 [[2; 3; 2; 3; 0; 1]]
           ["a"; "b"; "c"; "d"]).
  - discriminate.
  - repeat constructor.
  - reflexivity.
Defined.

(** C3 as stated fails.  Four states, one decoded trial that visits states
    2 and 3 twice and states 0 and 1 once: a sorting routine that meets
    numpy's contract relabels them in the order 3, 2, 1, 0, so that in both
    pairs of tied states the state with the larger original index comes
    first. *)
Lemma ties_reversed_with_4_states :
  let train_states := [[2; 3; 2; 3; 0; 1]]%nat in
  let usage := [1; 1; 2; 2]%Z in
  let perm := [3; 2; 1; 0]%nat in
  (forall v, Relabel.is_argsort v (Relabel.argsort_ties_reversed v))
  /\ Relabel.sort_states_by_usage Relabel.argsort_ties_reversed 4
       train_states ["a"; "b"; "c"; "d"]
     = Ok (usage, perm, ["d"; "c"; "b"; "a"])
  /\ ~ Relabel.ties_keep_order usage perm.
Proof.
  intros train_states usage perm.
  split; [ exact argsort_ties_reversed_is_argsort | ].
  split; [ reflexivity | ].
  intros H. specialize (H 0%nat 1%nat 3%nat 2%nat).
  assert (3 < 2)%nat; [ apply H; [ lia | reflexivity .. ] | lia ].
Qed.


(** ** Properties of [preprocess_neural_data] *)

Section PreprocessProperties.
Import Preprocess.
Variable gaussian_filter1d : Z -> nat -> (nat -> Q) -> nat -> Q.
Variable pca_scores : nat -> ndarray2 Q -> ndarray2 Q -> nat -> nat -> Q.

Notation "'preprocess'" := (preprocess_neural_data gaussian_filter1d pca_scores).
Notation "'rates_of' x" :=
  (smoothed_rates gaussian_filter1d x default_fs default_window)
  (at level 10, x at level 9).
Notation "'peaks_nonzero' x" :=
  (neurons_all_fire gaussian_filter1d x default_fs default_window)
  (at level 10, x at level 9).

Lemma max_upto_ge (f : nat -> Q) (n i : nat) :
  (i <= n)%nat -> (f i <= max_upto f n)%Q.
Proof.
  induction n as [|n IH]; intros Hi; simpl.
  - replace i with 0%nat by lia. apply Qle_refl.
  - destruct (Nat.eq_dec i (S n)) as [-> | Hne].
    + apply Q.le_max_r.
    + eapply Qle_trans; [ apply IH; lia | apply Q.le_max_l ].
Qed.

Lemma all_finite_intro (X : ndarray2 npfloat) :
  (forall r c, (c < snd (shape2 X))%nat -> is_finite (at2 X r c) = true) ->
  all_finite X = true.
Proof.
  intros H. unfold all_finite. destruct (shape2 X) as [rows cols] eqn:Hs.
  apply List.forallb_forall. intros r _.
  apply List.forallb_forall. intros c Hc. apply in_seq in Hc.
  apply H. simpl. lia.
Qed.

Lemma shape3_rates (x : ndarray3 Q) (fs window : Q) :
  shape3 (smoothed_rates gaussian_filter1d x fs window) = shape3 x.
Proof. unfold smoothed_rates. now destruct (shape3 x) as [[d0 d1] d2]. Qed.

Lemma peak_rates_returns (rates : ndarray3 Q) (d0 d1 d2 : nat) :
  shape3 rates = (S d0, S d1, d2) ->
  peak_rates rates
  = Ok {| shape1 := d2;
          at1 := fun k => max_upto (fun j => max_upto (fun i => at3 rates i j k) d0) d1 |}.
Proof.
  intros Hs. unfold peak_rates, np_max_axis0_3. rewrite Hs. reflexivity.
Qed.

Lemma peak_rates_inv (rates : ndarray3 Q) (max_rates : ndarray1 Q) :
  peak_rates rates = Ok max_rates ->
  exists d0 d1 d2,
    shape3 rates = (S d0, S d1, d2)
    /\ max_rates
       = {| shape1 := d2;
            at1 := fun k => max_upto (fun j => max_upto (fun i => at3 rates i j k) d0) d1 |}.
Proof.
  unfold peak_rates, np_max_axis0_3.
  destruct (shape3 rates) as [[[|d0] [|d1]] d2]; try discriminate.
  intros [= <-]. now exists d0, d1, d2.
Qed.

Lemma np_divide_finite (x m : Q) :
  ~ (m == 0)%Q -> np_divide x m = Finite (x / m)%Q.
Proof.
  intros Hm. unfold np_divide.
  destruct (Qeq_bool m 0) eqn:E; [ | reflexivity ].
  apply Qeq_bool_iff in E. contradiction.
Qed.

(** The function returns on at least 20 pooled samples of at least 20
    neurons that all fire. *)
Lemma preprocess_returns (neural_data : ndarray3 Q) (n_trials trial_length n_neurons : nat) :
  shape3 neural_data = (n_trials, trial_length, n_neurons) ->
  (20 <= n_neurons)%nat ->
  (20 <= n_trials * trial_length)%nat ->
  peaks_nonzero neural_data ->
  exists max_rates lowd pca,
    peak_rates (rates_of neural_data) = Ok max_rates
    /\ preprocess neural_data default_fs default_window
       = Ok (normalize (rates_of neural_data) max_rates, lowd, pca, max_rates)
    /\ shape3 lowd = (n_trials, trial_length, 20%nat).
Proof.
  intros Hshape Hneurons Hsamples Hpeaks.
  destruct n_trials as [|d0]; [ simpl in Hsamples; lia | ].
  destruct trial_length as [|d1]; [ rewrite Nat.mul_0_r in Hsamples; lia | ].
  pose proof (shape3_rates neural_data default_fs default_window) as Hrs.
  rewrite Hshape in Hrs.
  pose proof (peak_rates_returns _ _ _ _ Hrs) as Hpeak.
  set (max_rates := {| shape1 := n_neurons; at1 := _ |}) in Hpeak.
  set (nr := normalize (rates_of neural_data) max_rates).
  assert (Hfin : forall rows cols (X : ndarray2 npfloat),
             reshape_3_to_2 nr rows cols = Ok X -> all_finite X = true).
  { intros rows cols X. unfold reshape_3_to_2.
    replace (shape3 nr) with (S d0, S d1, n_neurons) by (symmetry; exact Hrs).
    destruct (_ =? _)%nat; [ | discriminate ]. intros [= <-].
    apply all_finite_intro. intros r c _. cbn [at2].
    rewrite np_divide_finite; [ reflexivity | ].
    apply (Hpeaks max_rates ((r * cols + c) mod n_neurons)%nat); [ exact Hpeak | ].
    rewrite Hshape. simpl. apply Nat.mod_upper_bound. lia. }
  assert (Hpool : exists X, reshape_3_to_2 nr (S d0 * S d1) n_neurons = Ok X
      /\ shape2 X = (S d0 * S d1, n_neurons)%nat).
  { unfold reshape_3_to_2.
    replace (shape3 nr) with (S d0, S d1, n_neurons) by (symmetry; exact Hrs).
    rewrite Nat.eqb_refl. eexists. split; reflexivity. }
  destruct Hpool as (X & HX & HXs).
  pose proof (Hfin _ _ _ HX) as HXfin.
  eexists max_rates, _, _. split; [ exact Hpeak | ].
  unfold preprocess_neural_data. rewrite Hshape.
  fold (rates_of neural_data). rewrite Hpeak. cbn [mbind result_bind].
  fold nr. rewrite HX. cbn [mbind result_bind].
  unfold PCA_fit. rewrite HXs, HXfin. cbn [negb].
  replace (S d0 * S d1 =? 0)%nat with false by (symmetry; apply Nat.eqb_neq; lia).
  replace (n_neurons =? 0)%nat with false by (symmetry; apply Nat.eqb_neq; lia).
  replace (20 <=? Nat.min (S d0 * S d1) n_neurons)%nat with true
    by (symmetry; apply Nat.leb_le; lia).
  cbn [orb negb mbind result_bind].
  unfold PCA_transform. rewrite HXs, HXfin. cbn [negb n_features].
  rewrite Nat.eqb_refl. cbn [negb n_components mbind result_bind].
  unfold reshape_2_to_3. cbn [shape2].
  rewrite Nat.eqb_refl. split; reflexivity.
Qed.

(** C4, as the code has it.  For every input array of shape
    (trials, time, neurons) with neurons >= 20, at least 20 pooled samples
    (trials * time >= 20) and a nonzero peak rate for every neuron, the
    function returns and its low-dimensional trajectory has shape
    (trials, time, 20). *)
Theorem lowd_shape_is_trials_time_20
    (neural_data : ndarray3 Q) (n_trials trial_length n_neurons : nat) :
  shape3 neural_data = (n_trials, trial_length, n_neurons) ->
  (20 <= n_neurons)%nat ->
  (20 <= n_trials * trial_length)%nat ->
  peaks_nonzero neural_data ->
  exists normalized_rates lowd pca max_rates,
    preprocess neural_data default_fs default_window
    = Ok (normalized_rates, lowd, pca, max_rates)
    /\ shape3 lowd = (n_trials, trial_length, 20%nat).
Proof.
  intros Hshape Hneurons Hsamples Hpeaks.
  destruct (preprocess_returns neural_data n_trials trial_length n_neurons
              Hshape Hneurons Hsamples Hpeaks)
    as (max_rates & lowd & pca & _ & Hrun & Hlowd).
  now exists (normalize (rates_of neural_data) max_rates), lowd, pca, max_rates.
Qed.

Lemma at3_rates (x : ndarray3 Q) (fs window : Q) i j k :
  at3 (smoothed_rates gaussian_filter1d x fs window) i j k
  = (gaussian_filter1d (int_of (window * fs)) (snd (fst (shape3 x)))
       (fun j' => at3 x i j' k) j * fs)%Q.
Proof. unfold smoothed_rates. now destruct (shape3 x) as [[d0 d1] d2]. Qed.

(** What a returning call returns first: the rates divided by the peaks. *)
Lemma preprocess_inv (x : ndarray3 Q) (fs window : Q) nr lowd pca max_rates :
  preprocess x fs window = Ok (nr, lowd, pca, max_rates) ->
  peak_rates (smoothed_rates gaussian_filter1d x fs window) = Ok max_rates
  /\ nr = normalize (smoothed_rates gaussian_filter1d x fs window) max_rates.
Proof.
  unfold preprocess_neural_data. destruct (shape3 x) as [[d0 d1] d2].
  destruct (peak_rates _) as [mr|]; [ | discriminate ]. cbn [mbind result_bind].
  destruct (reshape_3_to_2 _ _ _) as [X|]; [ | discriminate ]. cbn [mbind result_bind].
  destruct (PCA_fit _ _) as [p|]; [ | discriminate ]. cbn [mbind result_bind].
  destruct (PCA_transform _ _ _) as [l|]; [ | discriminate ]. cbn [mbind result_bind].
  destruct (reshape_2_to_3 _ _ _ _) as [l3|]; [ | discriminate ]. cbn [mbind result_bind].
  intros [= <- _ _ <-]. split; reflexivity.
Qed.

(** The smoothing kernel has no negative weight: it maps a series of
    non-negative counts to non-negative values. *)
Hypothesis filter_nonneg :
  forall sigma T (x : nat -> Q),
    (forall j, (j < T)%nat -> (0 <= x j)%Q) ->
    forall j, (j < T)%nat -> (0 <= gaussian_filter1d sigma T x j)%Q.

(** C5. For every count array in which each neuron's peak smoothed rate
    over all trials and time steps is nonzero, the normalized rates the
    function returns are, for every neuron, at most 1 at every trial and
    time step (so their maximum over trials and time is at most 1). *)
Theorem normalized_rates_at_most_one
    (neural_data : ndarray3 Q) (n_trials trial_length n_neurons : nat)
    normalized_rates lowd pca max_rates :
  shape3 neural_data = (n_trials, trial_length, n_neurons) ->
  (forall i j k, (i < n_trials)%nat -> (j < trial_length)%nat -> (k < n_neurons)%nat ->
                 (0 <= at3 neural_data i j k)%Q) ->
  peaks_nonzero neural_data ->
  preprocess neural_data default_fs default_window
  = Ok (normalized_rates, lowd, pca, max_rates) ->
  forall i j k, (i < n_trials)%nat -> (j < trial_length)%nat -> (k < n_neurons)%nat ->
                exists q, at3 normalized_rates i j k = Finite q /\ (q <= 1)%Q.
Proof.
  intros Hshape Hcounts Hpeaks Hrun i j k Hi Hj Hk.
  apply preprocess_inv in Hrun as [Hpeak ->].
  assert (Hnz : ~ (at1 max_rates k == 0)%Q)
    by (apply (Hpeaks max_rates k Hpeak); rewrite Hshape; exact Hk).
  destruct (peak_rates_inv _ _ Hpeak) as (d0 & d1 & d2 & Hrs & Hmr).
  rewrite shape3_rates, Hshape in Hrs. injection Hrs as -> -> ->.
  set (rates := rates_of neural_data) in *.
  assert (Hle : (at3 rates i j k <= at1 max_rates k)%Q).
  { rewrite Hmr. cbn [at1].
    eapply Qle_trans; [ apply (max_upto_ge (fun i => at3 rates i j k) d0 i); lia | ].
    apply (max_upto_ge (fun j => max_upto (fun i => at3 rates i j k) d0) d1 j). lia. }
  assert (H0 : (0 <= at3 rates i j k)%Q).
  { unfold rates. rewrite at3_rates, Hshape. cbn [fst snd].
    apply Qmult_le_0_compat; [ | discriminate ].
    apply filter_nonneg; [ | exact Hj ]. intros j' Hj'. now apply Hcounts. }
  assert (Hpos : (0 < at1 max_rates k)%Q).
  { destruct (Qle_lt_or_eq _ _ (Qle_trans _ _ _ H0 Hle)) as [H | H];
      [ exact H | exfalso; apply Hnz; symmetry; exact H ]. }
  exists (at3 rates i j k / at1 max_rates k)%Q. split.
  - unfold normalize. cbn [at3]. now apply np_divide_finite.
  - apply Qle_shift_div_r; [ exact Hpos | now rewrite Qmult_1_l ].
Qed.
End PreprocessProperties.

Lemma box_filter_nonneg sigma T (x : nat -> Q) :
  (forall j, (j < T)%nat -> (0 <= x j)%Q) ->
  forall j, (j < T)%nat -> (0 <= Preprocess.box_filter sigma T x j)%Q.
Proof.
  intros Hx j Hj. unfold Preprocess.box_filter.
  apply Qle_shift_div_l; [ reflexivity | ]. rewrite Qmult_0_l.
  assert (Hl : (0 <= match j with O => x O | S j' => x j' end)%Q)
    by (destruct j; apply Hx; lia).
  assert (Hr : (0 <= (if (S j <? T)%nat then x (S j) else x j))%Q).
  { destruct (S j <? T)%nat eqn:E; [ apply Hx; now apply Nat.ltb_lt | now apply Hx ]. }
  pose proof (Hx j Hj) as Hm.
  apply Qle_trans with (0 + 0 + 0)%Q; [ discriminate | ].
  repeat apply Qplus_le_compat; assumption.
Qed.

(** A recording of one trial, 20 time steps and 20 neurons, every count 3:
    every neuron fires. *)
Lemma constant_counts_fire :
  Preprocess.neurons_all_fire Preprocess.box_filter
    (Preprocess.constant_counts 1 20 20 3%Q)
    Preprocess.default_fs Preprocess.default_window.
Proof.
  intros max_rates k Hpeak _. vm_compute in Hpeak. injection Hpeak as <-.
  vm_compute. discriminate.
Qed.

(** C4 (amended) on that recording. *)
Lemma lowd_shape_is_trials_time_20_witness :
  exists normalized_rates lowd pca max_rates,
    Preprocess.preprocess_neural_data Preprocess.box_filter Preprocess.zero_scores
      (Preprocess.constant_counts 1 20 20 3%Q)
      Preprocess.default_fs Preprocess.default_window
    = Ok (normalized_rates, lowd, pca, max_rates)
    /\ Preprocess.shape3 lowd = (1, 20, 20)%nat.
Proof.
  apply (lowd_shape_is_trials_time_20 Preprocess.box_filter Preprocess.zero_scores
           (Preprocess.constant_counts 1 20 20 3%Q) 1 20 20).
  - reflexivity.
  - lia.
  - simpl. lia.
  - exact constant_counts_fire.
Defined.

(** C4 as stated fails: one trial of 5 time steps and 20 neurons has the
    20 neurons asked for, but only 5 pooled samples, fewer than the 20
    components; scikit-learn refuses the fit, whatever the filter and the
    scores are. *)
Lemma five_samples_raise :
  Preprocess.shape3 (Preprocess.constant_counts 1 5 20 1%Q) = (1, 5, 20)%nat
  /\ (forall gaussian_filter1d pca_scores,
        Preprocess.preprocess_neural_data gaussian_filter1d pca_scores
          (Preprocess.constant_counts 1 5 20 1%Q)
          Preprocess.default_fs Preprocess.default_window
        = Raise ValueError).
Proof.
  split; [ reflexivity | ]. intros gf ps.
  unfold Preprocess.preprocess_neural_data.
  cbn [Preprocess.shape3 Preprocess.constant_counts].
  rewrite (peak_rates_returns _ 0 4 20) by reflexivity.
  cbn [mbind result_bind]. unfold Preprocess.reshape_3_to_2.
  cbn [Preprocess.shape3 Preprocess.normalize Preprocess.smoothed_rates
       Preprocess.constant_counts].
  change (1 * 5 * 20 =? 1 * 5 * 20)%nat with true. cbn [mbind result_bind].
  unfold Preprocess.PCA_fit. cbn [Preprocess.shape2].
  destruct (Preprocess.all_finite _); reflexivity.
Qed.

(** C5 on the recording of constant counts. *)
Lemma normalized_rates_at_most_one_witness :
  exists normalized_rates lowd pca max_rates,
    Preprocess.preprocess_neural_data Preprocess.box_filter Preprocess.zero_scores
      (Preprocess.constant_counts 1 20 20 3%Q)
      Preprocess.default_fs Preprocess.default_window
    = Ok (normalized_rates, lowd, pca, max_rates)
    /\ forall i j k, (i < 1)%nat -> (j < 20)%nat -> (k < 20)%nat ->
         exists q, Preprocess.at3 normalized_rates i j k = Preprocess.Finite q
                   /\ (q <= 1)%Q.
Proof.
  destruct (preprocess_returns Preprocess.box_filter Preprocess.zero_scores
              (Preprocess.constant_counts 1 20 20 3%Q) 1 20 20)
    as (max_rates & lowd & pca & _ & Hrun & _);
    [ reflexivity | lia | simpl; lia | exact constant_counts_fire | ].
  eexists _, lowd, pca, max_rates. split; [ exact Hrun | ].
  apply (normalized_rates_at_most_one Preprocess.box_filter Preprocess.zero_scores
           box_filter_nonneg (Preprocess.constant_counts 1 20 20 3%Q) 1 20 20
           _ lowd pca max_rates).
  - reflexivity.
  - intros i j k _ _ _. simpl. discriminate.
  - exact constant_counts_fire.
  - exact Hrun.
Defined.


(** ** Properties of [sample_arhmm] *)

Section SamplerProperties.
Import Sampler.
Context {M G U X : Type}.
Variable hmm_sample : M -> G -> nat -> list U -> bool -> (list nat * list X) * M * G.

(** The loop touches no object but the one it samples from. *)
Lemma sample_loop_frame (n : nat) (arhmm : loc) T input with_noise :
  forall (s : interp) zs xs zs' xs' s',
    sample_loop hmm_sample n arhmm T input with_noise s zs xs = Ok (zs', xs', s') ->
    forall l, l <> arhmm -> heap s' !! l = heap s !! l.
Proof.
  induction n as [|n IH]; intros s zs xs zs' xs' s'; simpl.
  - intros [= _ _ <-]. reflexivity.
  - destruct (heap s !! arhmm) as [m|]; [ | discriminate ].
    destruct (hmm_sample m (rng s) T input with_noise) as [[[z x] m'] g'].
    intros Hrun l Hl. rewrite (IH _ _ _ _ _ _ Hrun l Hl). simpl.
    now apply lookup_insert_ne.
Qed.

(** C7. [sample_arhmm] leaves the fitted model passed to it unchanged:
    sampling runs on a deep copy, so the state of the model object (and of
    every other object that existed before the call) is after a returning
    call what it was before. *)
Theorem sample_arhmm_leaves_model_unchanged
    (arhmm_orig : loc) (test_input : list U) (num_samples : Z) (with_noise : bool)
    (s : interp) z_smpls x_smpls s' :
  sample_arhmm hmm_sample arhmm_orig test_input num_samples with_noise s
  = Ok (z_smpls, x_smpls, s') ->
  heap s' !! arhmm_orig = heap s !! arhmm_orig
  /\ forall l, is_Some (heap s !! l) -> heap s' !! l = heap s !! l.
Proof.
  unfold sample_arhmm, deepcopy.
  destruct (heap s !! arhmm_orig) as [m|] eqn:Horig; [ | discriminate ].
  cbn [mbind result_bind].
  set (new := fresh (dom (heap s))).
  destruct (sample_loop _ _ _ _ _ _ _ _ _) as [[[zs xs] s1]|] eqn:Hloop; [ | discriminate ].
  cbn [mbind result_bind]. destruct (stackable xs); [ | discriminate ].
  intros [= _ _ <-].
  assert (Hframe : forall l, is_Some (heap s !! l) -> heap s1 !! l = heap s !! l).
  { intros l Hl.
    assert (Hne : l <> new).
    { intros ->. apply elem_of_dom in Hl. exact (is_fresh (dom (heap s)) Hl). }
    rewrite (sample_loop_frame _ _ _ _ _ _ _ _ _ _ _ Hloop l Hne). simpl.
    apply lookup_insert_ne. congruence. }
  split; [ | exact Hframe ].
  rewrite <- Horig. apply Hframe. rewrite Horig. now eexists.
Qed.

(** Two runs of the loop on equal model states and equal generator
    states, at whatever addresses, go the same way. *)
Lemma sample_loop_lockstep (n : nat) T input with_noise :
  forall (s1 s2 : interp) l1 l2 zs xs,
    heap s1 !! l1 = heap s2 !! l2 ->
    rng s1 = rng s2 ->
    match sample_loop hmm_sample n l1 T input with_noise s1 zs xs,
          sample_loop hmm_sample n l2 T input with_noise s2 zs xs with
    | Ok (zs1, xs1, s1'), Ok (zs2, xs2, s2') =>
        zs1 = zs2 /\ xs1 = xs2 /\ rng s1' = rng s2'
    | Raise e1, Raise e2 => e1 = e2
    | _, _ => False
    end.
Proof.
  induction n as [|n IH]; intros s1 s2 l1 l2 zs xs Hm Hg; simpl.
  - auto.
  - rewrite Hm, Hg. destruct (heap s2 !! l2) as [m|]; [ | reflexivity ].
    destruct (hmm_sample m (rng s2) T input with_noise) as [[[z x] m'] g'].
    apply IH; simpl; [ now rewrite !lookup_insert_eq | reflexivity ].
Qed.

(** What ssm documents of [sample]: a state path and a trajectory of the
    [T] time steps asked for. *)
Hypothesis sample_lengths :
  forall m g T input with_noise z x m' g',
    hmm_sample m g T input with_noise = (z, x, m', g') ->
    length z = T /\ length x = T.

Lemma sample_loop_returns (n : nat) (arhmm : loc) T input with_noise :
  forall (s : interp) zs xs,
    is_Some (heap s !! arhmm) ->
    exists zs' xs' s',
      sample_loop hmm_sample n arhmm T input with_noise s zs xs
      = Ok (zs ++ zs', xs ++ xs', s')
      /\ length zs' = n /\ length xs' = n
      /\ Forall (fun z => length z = T) zs'
      /\ Forall (fun x => length x = T) xs'.
Proof.
  induction n as [|n IH]; intros s zs xs [m Hm]; simpl.
  - exists [], [], s. rewrite !app_nil_r. repeat split; constructor.
  - rewrite Hm.
    destruct (hmm_sample m (rng s) T input with_noise) as [[[z x] m'] g'] eqn:Hs.
    destruct (sample_lengths _ _ _ _ _ _ _ _ _ Hs) as [Hz Hx].
    destruct (IH {| heap := <[arhmm := m']> (heap s); rng := g' |}
                (zs ++ [z]) (xs ++ [x]))
      as (zs' & xs' & s' & Hrun & Hlz & Hlx & Hfz & Hfx).
    { simpl. rewrite lookup_insert_eq. now eexists. }
    exists (z :: zs'), (x :: xs'), s'. rewrite Hrun, <- !app_assoc. simpl.
    repeat split; try (f_equal; assumption); constructor; assumption.
Qed.

Lemma stackable_same_length (T : nat) (xs : list (list X)) :
  Forall (fun x => length x = T) xs -> stackable xs = true.
Proof.
  intros H. destruct H as [|x xs Hx Hxs]; [ reflexivity | ]. simpl.
  apply List.forallb_forall. intros y Hy. apply Nat.eqb_eq.
  rewrite Forall_forall in Hxs. rewrite Hx. apply Hxs. now apply list_elem_of_In.
Qed.

(** C6. For every fitted model, input sequence of length T and sample
    count N, [sample_arhmm] returns two lists of length N whose i-th
    elements are a state path of length T and a trajectory of length T, for
    every i in [0, N). *)
Theorem sample_arhmm_returns_N_samples_of_length_T
    (arhmm_orig : loc) (model : M) (test_input : list U) (num_samples : Z)
    (with_noise : bool) (s : interp) :
  heap s !! arhmm_orig = Some model ->
  (0 <= num_samples)%Z ->
  exists z_smpls x_smpls s',
    sample_arhmm hmm_sample arhmm_orig test_input num_samples with_noise s
    = Ok (z_smpls, x_smpls, s')
    /\ Z.of_nat (length z_smpls) = num_samples
    /\ Z.of_nat (length x_smpls) = num_samples
    /\ forall i, (0 <= i < num_samples)%Z ->
         exists z x,
           z_smpls !! Z.to_nat i = Some z /\ x_smpls !! Z.to_nat i = Some x
           /\ length z = length test_input /\ length x = length test_input.
Proof.
  intros Hmodel HN. unfold sample_arhmm, deepcopy. rewrite Hmodel.
  cbn [mbind result_bind].
  set (new := fresh (dom (heap s))).
  destruct (sample_loop_returns (Z.to_nat num_samples) new (length test_input)
              test_input with_noise
              {| heap := <[new := model]> (heap s); rng := rng s |} [] [])
    as (zs & xs & s' & Hrun & Hlz & Hlx & Hfz & Hfx).
  { simpl. rewrite lookup_insert_eq. now eexists. }
  rewrite Hrun. cbn [mbind result_bind app].
  rewrite (stackable_same_length _ _ Hfx).
  exists zs, xs, s'. split; [ reflexivity | ].
  split; [ lia | ]. split; [ lia | ].
  intros i Hi.
  destruct (lookup_lt_is_Some_2 zs (Z.to_nat i)) as [z Hz]; [ lia | ].
  destruct (lookup_lt_is_Some_2 xs (Z.to_nat i)) as [x Hx]; [ lia | ].
  exists z, x. split; [ exact Hz | ]. split; [ exact Hx | ].
  rewrite Forall_forall in Hfz. rewrite Forall_forall in Hfx.
  split; [ apply Hfz | apply Hfx ]; eapply list_elem_of_lookup_2; eassumption.
Qed.
End SamplerProperties.

Lemma toy_sample_lengths m g T input with_noise z x m' g' :
  Sampler.toy_sample m g T input with_noise = (z, x, m', g') ->
  length z = T /\ length x = T.
Proof.
  unfold Sampler.toy_sample. intros [= <- <- _ _].
  now rewrite !repeat_length.
Qed.

(** C6 on the toy model: four draws for an input of length three. *)
Lemma sample_arhmm_returns_N_samples_of_length_T_witness :
  exists z_smpls x_smpls s',
    Sampler.sample_arhmm Sampler.toy_sample 7%nat [1; 2; 3]%Z 4 true Sampler.toy_interp
    = Ok (z_smpls, x_smpls, s')
    /\ Z.of_nat (length z_smpls) = 4%Z
    /\ Z.of_nat (length x_smpls) = 4%Z
    /\ forall i, (0 <= i < 4)%Z ->
         exists z x,
           z_smpls !! Z.to_nat i = Some z /\ x_smpls !! Z.to_nat i = Some x
           /\ length z = length [1; 2; 3]%Z /\ length x = length [1; 2; 3]%Z.
Proof.
  apply (sample_arhmm_returns_N_samples_of_length_T Sampler.toy_sample
           toy_sample_lengths 7%nat 0%nat [1; 2; 3]%Z 4 true Sampler.toy_interp).
  - reflexivity.
  - lia.
Defined.

(** C7 on the toy model, whose [sample] does count its draws in the object
    it is called on: the original still reads 0 after four draws. *)
Lemma sample_arhmm_leaves_model_unchanged_witness :
  exists z_smpls x_smpls s',
    Sampler.sample_arhmm Sampler.toy_sample 7%nat [1; 2; 3]%Z 4 true Sampler.toy_interp
    = Ok (z_smpls, x_smpls, s')
    /\ Sampler.heap s' !! 7%nat = Some 0%nat
    /\ Sampler.heap s' !! fresh (dom (Sampler.heap Sampler.toy_interp)) = Some 4%nat.
Proof.
  destruct (Sampler.sample_arhmm Sampler.toy_sample 7%nat [1; 2; 3]%Z 4 true
              Sampler.toy_interp) as [[[zs xs] s']|e] eqn:Hrun;
    [ | vm_compute in Hrun; discriminate ].
  exists zs, xs, s'. split; [ reflexivity | ].
  split.
  - destruct (sample_arhmm_leaves_model_unchanged Sampler.toy_sample 7%nat
                [1; 2; 3]%Z 4 true Sampler.toy_interp zs xs s' Hrun) as [H _].
    etransitivity; [ exact H | reflexivity ].
  - vm_compute in Hrun. injection Hrun as _ _ <-. reflexivity.
Defined.


(** ** Properties of [make_hollywood_movie] *)

Section MovieProperties.
Import Movie.
Variable np_percentile : image_stack -> Q -> result unit.

Lemma lift_bind {A B : Type} (r : result A) (k : A -> movie B) (trace : list event) :
  (lift r ≫= k) trace
  = match r with
    | Ok a => k a trace
    | Raise e => (Raise e, trace)
    end.
Proof. destruct r; reflexivity. Qed.

Lemma assertion_free_bind {A B : Type} (c : movie A) (k : A -> movie B) :
  assertion_free c -> (forall a, assertion_free (k a)) -> assertion_free (c ≫= k).
Proof.
  intros Hc Hk trace. unfold mbind, movie_bind.
  specialize (Hc trace). destruct (c trace) as [[a|e] trace'].
  - apply Hk.
  - intros [line H]. apply Hc. exists line. simpl in *. congruence.
Qed.

Lemma assertion_free_ret {A : Type} (a : A) : assertion_free (mret a : movie A).
Proof. intros trace [line H]. discriminate. Qed.

Lemma assertion_free_emit (e : event) : assertion_free (emit e).
Proof. intros trace [line H]. discriminate. Qed.

Lemma assertion_free_item {A : Type} (l : list A) (i : nat) :
  assertion_free (lift (item l i)).
Proof.
  intros trace [line H]. unfold lift, item in H. simpl in H.
  destruct (l !! i); discriminate.
Qed.

Lemma assertion_free_frame_slice (a : image_stack) (i : nat) :
  assertion_free (lift (frame_slice a i)).
Proof.
  intros trace [line H]. unfold lift, frame_slice in H. simpl in H.
  destruct (_ && _); discriminate.
Qed.

Lemma assertion_free_for_each (xs : list nat) (body : nat -> movie unit) :
  (forall x, assertion_free (body x)) -> assertion_free (for_each xs body).
Proof.
  intros Hbody. induction xs as [|x xs IH]; simpl.
  - apply assertion_free_ret.
  - apply assertion_free_bind; [ apply Hbody | intros _; exact IH ].
Qed.

Ltac assertion_free_steps :=
  repeat first
    [ apply assertion_free_ret
    | apply assertion_free_emit
    | apply assertion_free_item
    | apply assertion_free_frame_slice
    | apply assertion_free_for_each; intros ?
    | apply assertion_free_bind; [ | intros ? ] ].

(** Drawing and writing can run out of frames or samples, but asserts
    nothing. *)
Lemma assertion_free_draw_and_write titles real z_inf decoded z_smpls filename N :
  assertion_free (draw_and_write titles real z_inf decoded z_smpls filename N).
Proof. unfold draw_and_write, update_frame. assertion_free_steps. Qed.

(** numpy's own failures are no assertion of this file. *)
Hypothesis percentile_asserts_nothing :
  forall stack q, ~ raises_assertion (np_percentile stack q).

Lemma percentiles_assert_nothing stacks q :
  ~ raises_assertion (percentiles np_percentile stacks q).
Proof.
  induction stacks as [|stack stacks IH]; simpl.
  - intros [line H]. discriminate.
  - pose proof (percentile_asserts_nothing stack q) as Hp.
    unfold mbind, result_bind. destruct (np_percentile stack q) as [[]|e].
    + exact IH.
    + intros [line H]. apply Hp. exists line. congruence.
Qed.

Lemma colour_limits_assert_nothing same_vlim real decoded :
  ~ raises_assertion (colour_limits np_percentile same_vlim real decoded).
Proof.
  intros [line H]. unfold colour_limits, extremum in H.
  pose proof (percentiles_assert_nothing decoded 0%Q) as H0.
  pose proof (percentiles_assert_nothing decoded (9999 # 100)%Q) as H1.
  destruct same_vlim, (size real =? 0)%nat; cbn in H; try discriminate.
  destruct (percentiles np_percentile decoded 0) as [[]|e0]; cbn in H.
  - apply H1. now exists line.
  - apply H0. exists line. congruence.
Qed.

(** C9, as the code has it.  With the ffmpeg writer available, the
    function raises the [AssertionError] of its stack-count check (line
    261), before any frame is rendered or written, if and only if it is
    given 10 or more decoded image stacks; fewer than 10 stacks pass that
    check.  Without the writer it raises a [RuntimeError] instead, whatever
    the number of stacks; and any [AssertionError] it raises, from line 261
    or from the check of [titles] at line 274, comes before the first
    event. *)
Theorem stack_count_assertion
    (K : Z) (real_image_stack : image_stack) (z_inf : list Z)
    (decoded_image_stacks : list image_stack) (z_smpls : list (list Z))
    (titles : option (list string)) (filename : string) (same_vlim : bool) :
  let run ffmpeg_available :=
    make_hollywood_movie np_percentile ffmpeg_available K real_image_stack z_inf
      decoded_image_stacks z_smpls titles filename same_vlim [] in
  (run true = (Raise (AssertionError 261), [])
   <-> (10 <= length decoded_image_stacks)%nat)
  /\ ((length decoded_image_stacks < 10)%nat ->
      fst (run true) <> Raise (AssertionError 261))
  /\ run false = (Raise RuntimeError, [])
  /\ (forall available, raises_assertion (fst (run available)) ->
                        snd (run available) = []).
Proof.
  intros run.
  set (N := length decoded_image_stacks).
  assert (Hbig : (10 <= N)%nat -> run true = (Raise (AssertionError 261), [])).
  { intros HN. subst run. cbv beta. unfold make_hollywood_movie. fold N.
    replace (N <? 10)%nat with false by (symmetry; apply Nat.ltb_ge; lia).
    reflexivity. }
  assert (Hsmall : (N < 10)%nat ->
            forall line, fst (run true) = Raise (AssertionError line) ->
                         line = 274%nat /\ snd (run true) = []).
  { intros HN line. subst run. cbv beta. unfold make_hollywood_movie. fold N.
    replace (N <? 10)%nat with true by (symmetry; now apply Nat.ltb_lt).
    rewrite lift_bind. cbn [get_writer]. rewrite lift_bind. rewrite lift_bind.
    pose proof (colour_limits_assert_nothing same_vlim real_image_stack
                  decoded_image_stacks) as Hcl.
    destruct (colour_limits _ _ _ _) as [[]|e].
    2:{ cbn. intros [= ->]. exfalso. apply Hcl. now exists line. }
    rewrite lift_bind. unfold check_titles.
    destruct titles as [given|].
    - destruct (length given =? N + 1)%nat.
      + rewrite lift_bind. unfold figure_size, item.
        destruct (decoded_image_stacks !! 0%nat) as [first|]; cbn [mbind result_bind];
          [ | cbn; discriminate ].
        destruct (width first * (N + 1) =? 0)%nat; [ cbn; discriminate | ].
        intros H. exfalso.
        eapply assertion_free_draw_and_write. eexists. exact H.
      + cbn. intros [= <-]. split; reflexivity.
    - rewrite lift_bind. unfold figure_size, item.
      destruct (decoded_image_stacks !! 0%nat) as [first|]; cbn [mbind result_bind];
        [ | cbn; discriminate ].
      destruct (width first * (N + 1) =? 0)%nat; [ cbn; discriminate | ].
      intros H. exfalso.
      eapply assertion_free_draw_and_write. eexists. exact H. }
  split; [ | split; [ | split ] ].
  - split; [ | exact Hbig ].
    intros Hrun. destruct (Nat.lt_ge_cases N 10) as [HN | HN]; [ | exact HN ].
    destruct (Hsmall HN 261%nat) as [H _]; [ now rewrite Hrun | discriminate ].
  - intros HN Hrun. destruct (Hsmall HN 261%nat Hrun) as [H _]. discriminate.
  - reflexivity.
  - intros [|] [line Hline]; [ | reflexivity ].
    destruct (Nat.lt_ge_cases N 10) as [HN | HN].
    + now destruct (Hsmall HN line Hline).
    + now rewrite (Hbig HN).
Qed.
End MovieProperties.

(** C9 (amended) on a small movie with two decoded stacks. *)
Lemma stack_count_assertion_witness :
  Movie.make_hollywood_movie Movie.percentile_ok true 3 Movie.clip [0; 1; 2]%Z
    (repeat Movie.clip 10) (repeat [0; 1; 2]%Z 10) None "hollywood.mp4" true []
  = (Raise (AssertionError 261), []).
Proof.
  apply (stack_count_assertion Movie.percentile_ok
           (fun stack q H => match H with ex_intro _ _ E => ltac:(discriminate E) end)
           3 Movie.clip [0; 1; 2]%Z (repeat Movie.clip 10) (repeat [0; 1; 2]%Z 10)
           None "hollywood.mp4" true).
  simpl. lia.
Defined.

(** C9 as stated fails in both directions.  Two decoded stacks, fewer than
    10, and a [titles] list of one entry instead of three: an
    [AssertionError] all the same, from line 274 and before any frame.  Ten
    stacks without the ffmpeg writer: a [RuntimeError], not an
    [AssertionError]. *)
Lemma assertion_error_with_two_stacks :
  (length [Movie.clip; Movie.clip] < 10)%nat
  /\ (forall np_percentile,
        Movie.make_hollywood_movie np_percentile true 3 Movie.clip [0; 1; 2]%Z
          [Movie.clip; Movie.clip] [[0; 1; 2]; [2; 2; 1]]%Z (Some ["Real"])
          "hollywood.mp4" true []
        = (Raise (AssertionError 274), []))
  /\ (forall np_percentile,
        Movie.make_hollywood_movie np_percentile false 3 Movie.clip [0; 1; 2]%Z
          (repeat Movie.clip 10) (repeat [0; 1; 2]%Z 10) None "hollywood.mp4" true []
        = (Raise RuntimeError, [])).
Proof.
  split; [ simpl; lia | ]. split; intros np_percentile; reflexivity.
Qed.

(* ===================================================================== *)
(** * Part III: further properties                                        *)
(* ===================================================================== *)

(** ** More on [cached] *)

Section CacheFurther.
Import Cache.
Context {R A : Type}.
Variable pickle_dumps : R -> option string.
Variable pickle_loads : string -> option R.

(** X1. The path of a cache entry always ends in [".pkl"], whatever the
    directory and the name are. *)
Theorem results_file_ends_in_pkl (output_dir results_name : string) :
  endswith (results_file output_dir results_name) ".pkl" = true.
Proof.
  unfold results_file.
  destruct (endswith (os_path_join output_dir results_name) ".pkl") eqn:E; simpl.
  - exact E.
  - apply endswith_append.
Qed.

(** X4. A failure is not cached: when the entry is absent and the wrapped
    function raises, the exception reaches the caller, the file system is
    left as it was, and the body has run once; a second call runs the body
    again and raises again. *)
Theorem cached_failure_is_not_cached
    output_dir results_name (func : A -> result R) args e w :
  nodes (fs w) !! results_file output_dir results_name = None ->
  func args = Raise e ->
  exists w1 w2,
    func_wrapper pickle_dumps pickle_loads output_dir results_name func args w
    = (Raise e, w1)
    /\ fs w1 = fs w /\ calls w1 = S (calls w)
    /\ func_wrapper pickle_dumps pickle_loads output_dir results_name func args w1
       = (Raise e, w2)
    /\ fs w2 = fs w /\ calls w2 = S (S (calls w)).
Proof.
  intros Hnode Hfunc.
  exists {| fs := fs w; calls := S (calls w) |},
         {| fs := fs w; calls := S (S (calls w)) |}.
  unfold func_wrapper, os_path_exists. simpl. rewrite Hnode, Hfunc.
  repeat split; reflexivity.
Qed.

Hypothesis pickle_roundtrip :
  forall r data, pickle_dumps r = Some data -> pickle_loads data = Some r.

(** X3. There is no invalidation: once a result is persisted under a key,
    every other function decorated with the same key returns that result,
    whatever its own body and arguments are, and its body never runs. *)
Theorem cached_key_serves_any_function
    output_dir results_name (f g : A -> result R) args_f args_g w0 r w1 :
  func_wrapper pickle_dumps pickle_loads output_dir results_name f args_f w0
  = (Ok r, w1) ->
  func_wrapper pickle_dumps pickle_loads output_dir results_name g args_g w1
  = (Ok r, w1).
Proof.
  intros Hfirst.
  destruct (func_wrapper_persists pickle_dumps pickle_loads pickle_roundtrip
              _ _ _ _ _ _ _ Hfirst) as [(data & Hnode & Hload) _].
  now apply func_wrapper_hit with (data := data).
Qed.
End CacheFurther.

(** X4 on the cached reciprocal that fails on 0. *)
Lemma cached_failure_is_not_cached_witness :
  exists w1 w2,
    Cache.func_wrapper Cache.unary_dumps Cache.unary_loads "out" "fit"
      (fun n : nat => match n with O => Raise ZeroDivisionError | S _ => Ok n end)
      0%nat Cache.fresh_world
    = (Raise ZeroDivisionError, w1)
    /\ Cache.fs w1 = Cache.fs Cache.fresh_world
    /\ Cache.calls w1 = S (Cache.calls Cache.fresh_world)
    /\ Cache.func_wrapper Cache.unary_dumps Cache.unary_loads "out" "fit"
         (fun n : nat => match n with O => Raise ZeroDivisionError | S _ => Ok n end)
         0%nat w1
       = (Raise ZeroDivisionError, w2)
    /\ Cache.fs w2 = Cache.fs Cache.fresh_world
    /\ Cache.calls w2 = S (S (Cache.calls Cache.fresh_world)).
Proof.
  apply (cached_failure_is_not_cached Cache.unary_dumps Cache.unary_loads "out" "fit"
           (fun n : nat => match n with O => Raise ZeroDivisionError | S _ => Ok n end)
           0%nat ZeroDivisionError Cache.fresh_world).
  - reflexivity.
  - reflexivity.
Defined.

(** X3 on a successor cached under ["out"]/["fit"], then a doubling
    function under the same key: it answers 4, the successor of 3. *)
Lemma cached_key_serves_any_function_witness :
  let w1 := snd (Cache.func_wrapper Cache.unary_dumps Cache.unary_loads "out" "fit"
                   (fun n : nat => Ok (S n)) 3%nat Cache.fresh_world) in
  Cache.func_wrapper Cache.unary_dumps Cache.unary_loads "out" "fit"
    (fun n : nat => Ok (n + n)%nat) 5%nat w1
  = (Ok 4%nat, w1).
Proof.
  intros w1.
  apply (cached_key_serves_any_function Cache.unary_dumps Cache.unary_loads
           unary_roundtrip "out" "fit" (fun n : nat => Ok (S n))
           (fun n : nat => Ok (n + n)%nat) 3%nat 5%nat Cache.fresh_world 4%nat w1).
  vm_compute. reflexivity.
Defined.

(** ** More on the state relabelling *)

Section RelabelFurther.
Import Relabel.
Context {P : Type}.

Lemma sort_states_by_usage_inv (argsort : list Z -> list nat) (K : nat)
    (train_states : list (list nat)) (model : list P) usage perm model' :
  sort_states_by_usage argsort K train_states model = Ok (usage, perm, model') ->
  usage = bincount (concat train_states) K
  /\ perm = argsort (map Z.opp usage)
  /\ np_take model perm = Ok model'.
Proof.
  unfold sort_states_by_usage, np_concatenate, permute.
  destruct train_states as [|t ts]; [ discriminate | ].
  cbn [mbind result_bind].
  destruct (np_take model _) as [m|] eqn:Hm; [ | discriminate ].
  cbn [mbind result_bind mret result_ret]. intros [= <- <- <-]. auto.
Qed.

Lemma np_take_cons_inv {A : Type} (arr : list A) (i : nat) (p : list nat) xs :
  np_take arr (i :: p) = Ok xs ->
  exists a ys, arr !! i = Some a /\ np_take arr p = Ok ys /\ xs = a :: ys.
Proof.
  simpl. destruct (arr !! i) as [a|]; [ | discriminate ].
  destruct (np_take arr p) as [ys|]; [ | discriminate ].
  cbn. intros [= <-]. now exists a, ys.
Qed.

(** Indexing by a rearranged index array rearranges the result. *)
Lemma np_take_permutation {A : Type} (arr : list A) (p p' : list nat) :
  Permutation p p' ->
  forall xs, np_take arr p = Ok xs ->
             exists xs', np_take arr p' = Ok xs' /\ Permutation xs xs'.
Proof.
  induction 1 as [|i p p' _ IH|i j p|p p' p'' _ IH1 _ IH2]; intros xs Hxs.
  - exists xs. split; [ exact Hxs | reflexivity ].
  - apply np_take_cons_inv in Hxs as (a & ys & Ha & Hys & ->).
    destruct (IH ys Hys) as (ys' & Hys' & Hperm).
    exists (a :: ys'). simpl. rewrite Ha, Hys'. split; [ reflexivity | now constructor ].
  - apply np_take_cons_inv in Hxs as (a & ys & Ha & Hys & ->).
    apply np_take_cons_inv in Hys as (b & zs & Hb & Hzs & ->).
    exists (b :: a :: zs). simpl. rewrite Ha, Hb, Hzs. split; [ reflexivity | constructor ].
  - destruct (IH1 xs Hxs) as (xs' & Hxs' & Hp1).
    destruct (IH2 xs' Hxs') as (xs'' & Hxs'' & Hp2).
    exists xs''. split; [ exact Hxs'' | now transitivity xs' ].
Qed.

Lemma np_take_all {A : Type} (l : list A) :
  forall pre, np_take (pre ++ l) (seq (length pre) (length l)) = Ok l.
Proof.
  induction l as [|a l IH]; intros pre; simpl; [ reflexivity | ].
  rewrite lookup_app_r by lia. rewrite Nat.sub_diag. simpl.
  specialize (IH (pre ++ [a])).
  rewrite <- app_assoc, length_app in IH. simpl in IH.
  rewrite Nat.add_1_r in IH. now rewrite IH.
Qed.

Lemma sum_zeros (l : list nat) : fold_right Z.add 0%Z (map (fun _ => 0%Z) l) = 0%Z.
Proof. induction l as [|k l IH]; simpl; [ reflexivity | exact IH ]. Qed.

Lemma sum_pointwise (f g : nat -> Z) (l : list nat) :
  fold_right Z.add 0%Z (map (fun k => (f k + g k)%Z) l)
  = (fold_right Z.add 0 (map f l) + fold_right Z.add 0 (map g l))%Z.
Proof. induction l as [|k l IH]; simpl; [ reflexivity | rewrite IH; lia ]. Qed.

Lemma sum_indicator (a n : nat) :
  forall s,
    fold_right Z.add 0%Z
      (map (fun k => if Nat.eq_dec a k then 1%Z else 0%Z) (seq s n))
    = if decide (s <= a < s + n)%nat then 1%Z else 0%Z.
Proof.
  induction n as [|n IH]; intros s; simpl.
  - destruct (decide _); [ lia | reflexivity ].
  - rewrite IH.
    destruct (Nat.eq_dec a s), (decide (S s <= a < S s + n)%nat),
      (decide (s <= a < s + S n)%nat); lia.
Qed.

(** Every occurrence of a value below [K] is counted in one of the [K]
    bins. *)
Lemma count_sum (x : list nat) (K : nat) :
  Forall (fun z => (z < K)%nat) x ->
  fold_right Z.add 0%Z (map (fun k => Z.of_nat (count_occ Nat.eq_dec x k)) (seq 0 K))
  = Z.of_nat (length x).
Proof.
  induction 1 as [|a x Ha _ IH].
  - simpl. apply sum_zeros.
  - transitivity
      (fold_right Z.add 0%Z
         (map (fun k => (Z.of_nat (count_occ Nat.eq_dec x k)
                         + (if Nat.eq_dec a k then 1 else 0))%Z) (seq 0 K))).
    + f_equal. apply map_ext. intros k. simpl. destruct (Nat.eq_dec a k); lia.
    + rewrite sum_pointwise, IH, sum_indicator.
      destruct (decide _); [ simpl length; lia | lia ].
Qed.

(** X8. The occupancy counts account for every decoded time step: they
    have one entry per state and sum to the total length of the decoded
    paths. *)
Theorem usage_counts_every_time_step (argsort : list Z -> list nat) (K : nat)
    (train_states : list (list nat)) (model : list P) usage perm model' :
  Forall (Forall (fun z => (z < K)%nat)) train_states ->
  sort_states_by_usage argsort K train_states model = Ok (usage, perm, model') ->
  length usage = K
  /\ fold_right Z.add 0%Z usage = Z.of_nat (length (concat train_states)).
Proof.
  intros Hstates Hrun.
  apply sort_states_by_usage_inv in Hrun as (-> & _ & _).
  assert (Hall : Forall (fun z => (z < K)%nat) (concat train_states))
    by now apply Forall_concat.
  split; [ now apply bincount_length | ].
  unfold bincount.
  replace (match concat train_states with
           | [] => K
           | _ :: _ => Nat.max K (S (list_max (concat train_states)))
           end) with K; [ now apply count_sum | ].
  destruct (concat train_states) as [|z x] eqn:E; [ reflexivity | ].
  assert (list_max (z :: x) < K)%nat by (apply list_max_lt; [ discriminate | exact Hall ]).
  lia.
Qed.

Section AnyKind.
Variable argsort : list Z -> list nat.
Hypothesis argsort_spec : forall v, is_argsort v (argsort v).

(** X6. Whatever the sorting kind, a state that is used strictly more than
    another gets the smaller new label. *)
Theorem more_used_states_come_first (K : nat)
    (train_states : list (list nat)) (model : list P) usage perm model' :
  sort_states_by_usage argsort K train_states model = Ok (usage, perm, model') ->
  forall a b i j,
    perm !! a = Some i -> perm !! b = Some j ->
    (key usage j < key usage i)%Z -> (a < b)%nat.
Proof.
  intros Hrun a b i j Ha Hb Hlt.
  apply sort_states_by_usage_inv in Hrun as (_ & -> & _).
  pose proof (usage_sorted_after_argsort argsort argsort_spec usage) as Hs.
  destruct (Nat.lt_ge_cases a b) as [Hab | Hba]; [ exact Hab | exfalso ].
  destruct (Nat.eq_dec a b) as [-> | Hne].
  - rewrite Ha in Hb. injection Hb as ->. lia.
  - assert (key usage j >= key usage i)%Z; [ | lia ].
    apply (StronglySorted_lookup Z.ge _ b a _ _ Hs); [ lia | | ];
      rewrite list_lookup_fmap; [ now rewrite Hb | now rewrite Ha ].
Qed.

(** X7. The relabelling loses and duplicates no state: the permuted model
    holds the per-state parameters of the fitted model, each once, in the new
    order. *)
Theorem relabelled_model_is_a_permutation (K : nat)
    (train_states : list (list nat)) (model : list P) usage perm model' :
  Forall (Forall (fun z => (z < K)%nat)) train_states ->
  length model = K ->
  sort_states_by_usage argsort K train_states model = Ok (usage, perm, model') ->
  Permutation model' model /\ Permutation perm (seq 0 K).
Proof.
  intros Hstates Hmodel Hrun.
  apply sort_states_by_usage_inv in Hrun as (Husage & -> & Htake).
  destruct (argsort_spec (map Z.opp usage)) as [Hperm _].
  rewrite length_map in Hperm.
  assert (Hlen : length usage = K)
    by (rewrite Husage; apply bincount_length; now apply Forall_concat).
  rewrite Hlen in Hperm. split; [ | exact Hperm ].
  destruct (np_take_permutation model _ _ Hperm _ Htake) as (xs & Hxs & Hp).
  pose proof (np_take_all model []) as Hall. simpl in Hall.
  rewrite Hmodel in Hall. rewrite Hall in Hxs. injection Hxs as <-. exact Hp.
Qed.
End AnyKind.
End RelabelFurther.

(** X8 on three states and two decoded trials of 3 and 4 steps. *)
Lemma usage_counts_every_time_step_witness :
  length [2; 1; 4]%Z = 3%nat
  /\ fold_right Z.add 0%Z [2; 1; 4]%Z
     = Z.of_nat (length (concat [[2; 0; 2]; [1; 2; 0; 2]]%nat)).
Proof.
  apply (usage_counts_every_time_step Relabel.argsort_insertion 3
           [[2; 0; 2]; [1; 2; 0; 2]]%nat ["a"; "b"; "c"]
           [2; 1; 4]%Z [2; 0; 1]%nat ["c"; "a"; "b"]).
  - repeat constructor.
  - reflexivity.
Defined.

(** X6 on the same fit: state 2 (four steps) is relabelled 0, before state
    1 (one step), relabelled 2. *)
Lemma more_used_states_come_first_witness :
  Relabel.sort_states_by_usage Relabel.argsort_insertion 3
    [[2; 0; 2]; [1; 2; 0; 2]]%nat ["a"; "b"; "c"]
  = Ok ([2; 1; 4]%Z, [2; 0; 1]%nat, ["c"; "a"; "b"])
  /\ (Relabel.key [2; 1; 4]%Z 1 < Relabel.key [2; 1; 4]%Z 2)%Z
  /\ (0 < 2)%nat.
Proof.
  split; [ reflexivity | ]. split; [ reflexivity | ].
  apply (more_used_states_come_first Relabel.argsort_insertion
           argsort_insertion_is_argsort 3 [[2; 0; 2]; [1; 2; 0; 2]]%nat
           ["a"; "b"; "c"] [2; 1; 4]%Z [2; 0; 1]%nat ["c"; "a"; "b"]
           eq_refl 0%nat 2%nat 2%nat 1%nat eq_refl eq_refl).
  reflexivity.
Defined.

(** X7 on the same fit. *)
Lemma relabelled_model_is_a_permutation_witness :
  Permutation ["c"; "a"; "b"] ["a"; "b"; "c"]
  /\ Permutation [2; 0; 1]%nat (seq 0 3).
Proof.
  apply (relabelled_model_is_a_permutation Relabel.argsort_insertion
           argsort_insertion_is_argsort 3 [[2; 0; 2]; [1; 2; 0; 2]]%nat
           ["a"; "b"; "c"] [2; 1; 4]%Z [2; 0; 1]%nat ["c"; "a"; "b"]).
  - repeat constructor.
  - reflexivity.
  - reflexivity.
Defined.

(** ** More on [preprocess_neural_data] *)

Section PreprocessFurther.
Import Preprocess.
Variable gaussian_filter1d : Z -> nat -> (nat -> Q) -> nat -> Q.
Variable pca_scores : nat -> ndarray2 Q -> ndarray2 Q -> nat -> nat -> Q.

Lemma max_upto_attained (f : nat -> Q) (n : nat) :
  exists i, (i <= n)%nat /\ (max_upto f n == f i)%Q.
Proof.
  induction n as [|n (i & Hi & IH)]; simpl.
  - exists 0%nat. split; [ lia | reflexivity ].
  - destruct (Q.max_spec (max_upto f n) (f (S n))) as [[_ H] | [_ H]].
    + exists (S n). split; [ lia | exact H ].
    + exists i. split; [ lia | now rewrite H ].
Qed.

Lemma all_finite_elim (X : ndarray2 npfloat) (r c : nat) :
  all_finite X = true ->
  (r < fst (shape2 X))%nat -> (c < snd (shape2 X))%nat ->
  is_finite (at2 X r c) = true.
Proof.
  unfold all_finite. destruct (shape2 X) as [rows cols]. simpl.
  intros H Hr Hc.
  rewrite List.forallb_forall in H.
  specialize (H r). rewrite List.forallb_forall in H.
  apply H; apply in_seq; lia.
Qed.

Lemma np_divide_is_finite (x m : Q) :
  is_finite (np_divide x m) = true -> ~ (m == 0)%Q.
Proof.
  unfold np_divide. destruct (Qeq_bool m 0) eqn:E; [ discriminate | ].
  intros _ H. apply Qeq_bool_iff in H. congruence.
Qed.

(** The pooled matrix the PCA is fit on: its shape, and the neuron behind
    each entry of its first row. *)
Lemma pooled_first_row (nr : ndarray3 npfloat) (d0 d1 d2 : nat) :
  shape3 nr = (d0, d1, d2) ->
  exists X, reshape_3_to_2 nr (d0 * d1) d2 = Ok X
            /\ shape2 X = ((d0 * d1)%nat, d2)
            /\ forall k, (k < d2)%nat -> exists i j, at2 X 0 k = at3 nr i j k.
Proof.
  intros Hs. unfold reshape_3_to_2. rewrite Hs, Nat.eqb_refl.
  eexists. split; [ reflexivity | ]. split; [ reflexivity | ].
  intros k Hk. cbn [at2]. rewrite Nat.mul_0_l, Nat.add_0_l.
  rewrite (Nat.mod_small k d2 Hk). eauto.
Qed.

(** What a returning call has checked on the way. *)
Lemma preprocess_checks (x : ndarray3 Q) (fs window : Q) (a b c : nat)
    nr lowd pca max_rates :
  shape3 x = (a, b, c) ->
  preprocess_neural_data gaussian_filter1d pca_scores x fs window
  = Ok (nr, lowd, pca, max_rates) ->
  (20 <= c)%nat /\ (20 <= a * b)%nat
  /\ forall k, (k < c)%nat -> ~ (at1 max_rates k == 0)%Q.
Proof.
  intros Hshape Hrun.
  destruct (preprocess_inv gaussian_filter1d pca_scores _ _ _ _ _ _ _ Hrun)
    as [Hpeak Hnr].
  revert Hrun. unfold preprocess_neural_data. rewrite Hshape, Hpeak.
  cbn [mbind result_bind]. rewrite <- Hnr.
  destruct (pooled_first_row nr a b c) as (X & HX & HXs & Hrow).
  { rewrite Hnr. unfold normalize. cbn [shape3].
    now rewrite shape3_rates. }
  rewrite HX. cbn [mbind result_bind]. unfold PCA_fit. rewrite HXs.
  destruct (all_finite X) eqn:Hfin; [ | discriminate ]. cbn [negb].
  destruct ((a * b =? 0)%nat || (c =? 0)%nat); [ discriminate | ].
  destruct (20 <=? Nat.min (a * b) c)%nat eqn:Hdim; [ | discriminate ].
  intros _. apply Nat.leb_le in Hdim.
  split; [ lia | ]. split; [ lia | ].
  intros k Hk. destruct (Hrow k Hk) as (i & j & Hat).
  assert (Hf : is_finite (at2 X 0 k) = true)
    by (apply all_finite_elim; [ exact Hfin | rewrite HXs; simpl; lia
                               | rewrite HXs; exact Hk ]).
  rewrite Hat, Hnr in Hf. unfold normalize in Hf. cbn [at3] in Hf.
  now apply np_divide_is_finite in Hf.
Qed.

(** X10. The returned normalized rates reach exactly 1: every neuron has a
    trial and a time step at which its normalized rate is 1. *)
Theorem normalized_peak_is_one (x : ndarray3 Q) (fs window : Q) (a b c : nat)
    nr lowd pca max_rates :
  shape3 x = (a, b, c) ->
  preprocess_neural_data gaussian_filter1d pca_scores x fs window
  = Ok (nr, lowd, pca, max_rates) ->
  forall k, (k < c)%nat ->
    exists i j q, (i < a)%nat /\ (j < b)%nat
                  /\ at3 nr i j k = Finite q /\ (q == 1)%Q.
Proof.
  intros Hshape Hrun k Hk.
  destruct (preprocess_checks _ _ _ _ _ _ _ _ _ _ Hshape Hrun) as (_ & _ & Hnz).
  specialize (Hnz k Hk).
  destruct (preprocess_inv gaussian_filter1d pca_scores _ _ _ _ _ _ _ Hrun)
    as [Hpeak ->].
  destruct (peak_rates_inv _ _ Hpeak) as (d0 & d1 & d2 & Hrs & Hmr).
  rewrite shape3_rates, Hshape in Hrs. injection Hrs as -> -> ->.
  set (rates := smoothed_rates gaussian_filter1d x fs window) in *.
  destruct (max_upto_attained
              (fun j => max_upto (fun i => at3 rates i j k) d0) d1) as (j & Hj & Hmaxj).
  destruct (max_upto_attained (fun i => at3 rates i j k) d0) as (i & Hi & Hmaxi).
  assert (Hpk : (at1 max_rates k == at3 rates i j k)%Q).
  { rewrite Hmr. cbn [at1]. rewrite Hmaxj. exact Hmaxi. }
  exists i, j, (at3 rates i j k / at1 max_rates k)%Q.
  split; [ lia | ]. split; [ lia | ]. split.
  - unfold normalize. cbn [at3]. now apply np_divide_finite.
  - rewrite <- Hpk. unfold Qdiv. now apply Qmult_inv_r.
Qed.

(** X12. The function does not return for fewer than 20 neurons, for fewer
    than 20 pooled samples, or when a neuron never fires: on a recording with
    at least one trial and one time step it then raises a [ValueError]. *)
Theorem preprocess_raises_value_error (x : ndarray3 Q) (a b c : nat) :
  shape3 x = (a, b, c) ->
  (1 <= a)%nat -> (1 <= b)%nat ->
  (c < 20)%nat \/ (a * b < 20)%nat
  \/ (exists max_rates k,
         peak_rates (smoothed_rates gaussian_filter1d x default_fs default_window)
         = Ok max_rates
         /\ (k < c)%nat /\ (at1 max_rates k == 0)%Q) ->
  preprocess_neural_data gaussian_filter1d pca_scores x default_fs default_window
  = Raise ValueError.
Proof.
  intros Hshape Ha Hb Hbad.
  destruct a as [|d0]; [ lia | ]. destruct b as [|d1]; [ lia | ].
  pose proof (shape3_rates gaussian_filter1d x default_fs default_window) as Hrs.
  rewrite Hshape in Hrs.
  pose proof (peak_rates_returns _ _ _ _ Hrs) as Hpeak.
  set (mr := {| shape1 := c; at1 := _ |}) in Hpeak.
  unfold preprocess_neural_data. rewrite Hshape, Hpeak. cbn [mbind result_bind].
  set (nr := normalize _ mr).
  destruct (pooled_first_row nr (S d0) (S d1) c) as (X & HX & HXs & Hrow);
    [ exact Hrs | ].
  rewrite HX. cbn [mbind result_bind]. unfold PCA_fit. rewrite HXs.
  destruct (all_finite X) eqn:Hfin; [ | reflexivity ]. cbn [negb].
  destruct ((S d0 * S d1 =? 0)%nat || (c =? 0)%nat); [ reflexivity | ].
  destruct (20 <=? Nat.min (S d0 * S d1) c)%nat eqn:Hdim; [ | reflexivity ].
  exfalso. apply Nat.leb_le in Hdim.
  destruct Hbad as [H | [H | (mr' & k & Hmr' & Hk & Hzero)]]; [ lia | lia | ].
  rewrite Hpeak in Hmr'. injection Hmr' as <-.
  destruct (Hrow k Hk) as (i & j & Hat).
  assert (Hf : is_finite (at2 X 0 k) = true)
    by (apply all_finite_elim; [ exact Hfin | rewrite HXs; simpl; lia
                               | rewrite HXs; exact Hk ]).
  rewrite Hat in Hf. unfold nr, normalize in Hf. cbn [at3] in Hf.
  now apply np_divide_is_finite in Hf.
Qed.
End PreprocessFurther.

(** X10 on the recording of constant counts. *)
Lemma normalized_peak_is_one_witness :
  exists normalized_rates lowd pca max_rates,
    Preprocess.preprocess_neural_data Preprocess.box_filter Preprocess.zero_scores
      (Preprocess.constant_counts 1 20 20 3%Q)
      Preprocess.default_fs Preprocess.default_window
    = Ok (normalized_rates, lowd, pca, max_rates)
    /\ forall k, (k < 20)%nat ->
         exists i j q, (i < 1)%nat /\ (j < 20)%nat
                       /\ Preprocess.at3 normalized_rates i j k = Preprocess.Finite q
                       /\ (q == 1)%Q.
Proof.
  destruct (preprocess_returns Preprocess.box_filter Preprocess.zero_scores
              (Preprocess.constant_counts 1 20 20 3%Q) 1 20 20)
    as (max_rates & lowd & pca & _ & Hrun & _);
    [ reflexivity | lia | simpl; lia | exact constant_counts_fire | ].
  eexists _, lowd, pca, max_rates. split; [ exact Hrun | ].
  apply (normalized_peak_is_one Preprocess.box_filter Preprocess.zero_scores
           (Preprocess.constant_counts 1 20 20 3%Q)
           Preprocess.default_fs Preprocess.default_window 1 20 20
           _ lowd pca max_rates eq_refl Hrun).
Defined.

(** X12 on a recording in which no neuron ever fires: 2 trials of 30 time
    steps and 25 neurons, every count 0. *)
Lemma preprocess_raises_value_error_witness :
  Preprocess.preprocess_neural_data Preprocess.box_filter Preprocess.zero_scores
    (Preprocess.constant_counts 2 30 25 0%Q)
    Preprocess.default_fs Preprocess.default_window
  = Raise ValueError.
Proof.
  apply (preprocess_raises_value_error Preprocess.box_filter Preprocess.zero_scores
           (Preprocess.constant_counts 2 30 25 0%Q) 2 30 25).
  - reflexivity.
  - lia.
  - lia.
  - right. right.
    eexists _, 0%nat. split; [ apply (peak_rates_returns _ 1 29 25); reflexivity | ].
    split; [ lia | ]. vm_compute. reflexivity.
Defined.

(** ** More on [sample_arhmm] *)

Section SamplerFurther.
Import Sampler.
Context {M G U X : Type}.
Variable hmm_sample : M -> G -> nat -> list U -> bool -> (list nat * list X) * M * G.

(** X13. A sample count of zero or less gives two empty lists and draws
    nothing: the generator is left in the state it was in. *)
Theorem no_samples_for_nonpositive_count
    (arhmm_orig : loc) (model : M) (test_input : list U) (num_samples : Z)
    (with_noise : bool) (s : interp) :
  heap s !! arhmm_orig = Some model ->
  (num_samples <= 0)%Z ->
  exists s',
    sample_arhmm hmm_sample arhmm_orig test_input num_samples with_noise s
    = Ok ([], [], s')
    /\ rng s' = rng s.
Proof.
  intros Hmodel HN. unfold sample_arhmm, deepcopy. rewrite Hmodel.
  cbn [mbind result_bind].
  replace (Z.to_nat num_samples) with 0%nat by lia.
  eexists. split; reflexivity.
Qed.

(** The lists the loop starts with only sit in front of what it draws. *)
Lemma sample_loop_from_empty (n : nat) (l : loc) T input with_noise :
  forall (s : interp) az ax,
    sample_loop hmm_sample n l T input with_noise s az ax
    = match sample_loop hmm_sample n l T input with_noise s [] [] with
      | Ok (zs, xs, s') => Ok (az ++ zs, ax ++ xs, s')
      | Raise e => Raise e
      end.
Proof.
  induction n as [|n IH]; intros s az ax; simpl.
  - now rewrite !app_nil_r.
  - destruct (heap s !! l) as [m|]; [ | reflexivity ].
    destruct (hmm_sample m (rng s) T input with_noise) as [[[z x] m'] g'].
    rewrite IH. rewrite (IH _ [z] [x]).
    destruct (sample_loop hmm_sample n l T input with_noise _ [] [])
      as [[[zs xs] s']|e]; [ | reflexivity ].
    now rewrite <- !app_assoc.
Qed.

(** A loop of [n1 + n2] rounds is a loop of [n1] rounds followed by one of
    [n2] rounds. *)
Lemma sample_loop_add (n1 n2 : nat) (l : loc) T input with_noise :
  forall (s : interp) az ax,
    sample_loop hmm_sample (n1 + n2) l T input with_noise s az ax
    = match sample_loop hmm_sample n1 l T input with_noise s az ax with
      | Ok (zs, xs, s1) => sample_loop hmm_sample n2 l T input with_noise s1 zs xs
      | Raise e => Raise e
      end.
Proof.
  induction n1 as [|n1 IH]; intros s az ax; simpl; [ reflexivity | ].
  destruct (heap s !! l) as [m|]; [ | reflexivity ].
  destruct (hmm_sample m (rng s) T input with_noise) as [[[z x] m'] g'].
  apply IH.
Qed.

Lemma stackable_app (xs1 xs2 : list (list X)) :
  stackable (xs1 ++ xs2) = true -> stackable xs1 = true /\ stackable xs2 = true.
Proof.
  destruct xs1 as [|x xs1]; simpl; [ auto | ].
  rewrite forallb_app. intros H. apply andb_prop in H as [H1 H2].
  split; [ exact H1 | ].
  destruct xs2 as [|y xs2]; simpl in *; [ reflexivity | ].
  apply andb_prop in H2 as [Hy H2]. apply Nat.eqb_eq in Hy.
  rewrite List.forallb_forall in H2. apply List.forallb_forall.
  intros w Hw. rewrite Hy. now apply H2.
Qed.

(** ssm's [sample] does not change the model it samples from. *)
Hypothesis sample_reads_only :
  forall m g T input with_noise z x m' g',
    hmm_sample m g T input with_noise = (z, x, m', g') -> m' = m.

Lemma sample_loop_keeps_heap (n : nat) (l : loc) T input with_noise :
  forall (s : interp) az ax zs xs s',
    sample_loop hmm_sample n l T input with_noise s az ax = Ok (zs, xs, s') ->
    heap s' = heap s.
Proof.
  induction n as [|n IH]; intros s az ax zs xs s'; simpl.
  - intros [= _ _ <-]. reflexivity.
  - destruct (heap s !! l) as [m|] eqn:Hm; [ | discriminate ].
    destruct (hmm_sample m (rng s) T input with_noise) as [[[z x] m'] g'] eqn:Hs.
    apply sample_reads_only in Hs. subst m'.
    intros Hrun. rewrite (IH _ _ _ _ _ _ Hrun). simpl. now apply insert_id.
Qed.

(** X14. Sampling in two calls, without reseeding in between, gives what
    one call gives: a call for [N1 + N2] samples returns the samples of a
    call for [N1] followed by those of a call for [N2] made right after it,
    and leaves the generator in the same state. *)
Theorem sampling_splits_into_two_calls
    (arhmm_orig : loc) (test_input : list U) (N1 N2 : Z) (with_noise : bool)
    (s : interp) z_smpls x_smpls s' :
  (0 <= N1)%Z -> (0 <= N2)%Z ->
  sample_arhmm hmm_sample arhmm_orig test_input (N1 + N2) with_noise s
  = Ok (z_smpls, x_smpls, s') ->
  exists zs1 xs1 s1 zs2 xs2 s2,
    sample_arhmm hmm_sample arhmm_orig test_input N1 with_noise s = Ok (zs1, xs1, s1)
    /\ sample_arhmm hmm_sample arhmm_orig test_input N2 with_noise s1 = Ok (zs2, xs2, s2)
    /\ z_smpls = zs1 ++ zs2 /\ x_smpls = xs1 ++ xs2
    /\ rng s2 = rng s'.
Proof.
  intros H1 H2. unfold sample_arhmm at 1. unfold deepcopy.
  destruct (heap s !! arhmm_orig) as [m|] eqn:Horig; [ | discriminate ].
  cbn [mbind result_bind].
  set (new := fresh (dom (heap s))).
  set (s0 := {| heap := <[new := m]> (heap s); rng := rng s |}).
  replace (Z.to_nat (N1 + N2)) with (Z.to_nat N1 + Z.to_nat N2)%nat by lia.
  rewrite sample_loop_add.
  destruct (sample_loop hmm_sample (Z.to_nat N1) new _ _ _ s0 [] [])
    as [[[zs1 xs1] s1]|e] eqn:Hloop1; [ | discriminate ].
  rewrite sample_loop_from_empty.
  destruct (sample_loop hmm_sample (Z.to_nat N2) new _ _ _ s1 [] [])
    as [[[zs2 xs2] s2]|e] eqn:Hloop2; [ | discriminate ].
  cbn [mbind result_bind].
  destruct (stackable (xs1 ++ xs2)) eqn:Hstack; [ | discriminate ].
  intros [= <- <- <-].
  apply stackable_app in Hstack as [Hst1 Hst2].
  (* the first call *)
  assert (Hcall1 : sample_arhmm hmm_sample arhmm_orig test_input N1 with_noise s
                   = Ok (zs1, xs1, s1)).
  { unfold sample_arhmm, deepcopy. rewrite Horig. cbn [mbind result_bind].
    fold new. fold s0. rewrite Hloop1. cbn [mbind result_bind]. now rewrite Hst1. }
  (* the second call, on the heap the first one left *)
  pose proof (sample_loop_keeps_heap _ _ _ _ _ _ _ _ _ _ _ Hloop1) as Hheap1.
  assert (Hnew : heap s1 !! new = Some m)
    by (rewrite Hheap1; simpl; apply lookup_insert_eq).
  assert (Horig1 : heap s1 !! arhmm_orig = Some m).
  { rewrite Hheap1. simpl. rewrite lookup_insert_ne; [ exact Horig | ].
    intros E. pose proof (is_fresh (dom (heap s))) as Hf. fold new in Hf.
    apply Hf. rewrite E. apply elem_of_dom. now exists m. }
  set (new2 := fresh (dom (heap s1))).
  pose proof (sample_loop_lockstep hmm_sample (Z.to_nat N2) (length test_input)
                test_input with_noise
                {| heap := <[new2 := m]> (heap s1); rng := rng s1 |} s1
                new2 new [] []) as Hstep.
  cbn [heap rng] in Hstep. rewrite lookup_insert_eq, Hnew in Hstep.
  specialize (Hstep eq_refl eq_refl). rewrite Hloop2 in Hstep.
  destruct (sample_loop hmm_sample (Z.to_nat N2) new2 _ _ _ _ [] [])
    as [[[zs2' xs2'] s2']|e] eqn:Hloop2'; [ | contradiction ].
  destruct Hstep as (-> & -> & Hrng).
  exists zs1, xs1, s1, zs2, xs2, s2'.
  split; [ exact Hcall1 | ]. split.
  - unfold sample_arhmm, deepcopy. rewrite Horig1. cbn [mbind result_bind].
    fold new2. rewrite Hloop2'. cbn [mbind result_bind]. now rewrite Hst2.
  - auto.
Qed.
End SamplerFurther.

(** X13 on the toy model and a count of -3. *)
Lemma no_samples_for_nonpositive_count_witness :
  exists s',
    Sampler.sample_arhmm Sampler.toy_sample 7%nat [1; 2; 3]%Z (-3) true Sampler.toy_interp
    = Ok ([], [], s')
    /\ Sampler.rng s' = Sampler.rng Sampler.toy_interp.
Proof.
  apply (no_samples_for_nonpositive_count Sampler.toy_sample 7%nat 0%nat
           [1; 2; 3]%Z (-3) true Sampler.toy_interp).
  - reflexivity.
  - lia.
Defined.

Lemma steady_sample_reads_only m g T input with_noise z x m' g' :
  Standins.steady_sample m g T input with_noise = (z, x, m', g') -> m' = m.
Proof. unfold Standins.steady_sample. now intros [= _ _ <- _]. Qed.

(** X14 on a read-only sampler: five samples are two samples and then
    three. *)
Lemma sampling_splits_into_two_calls_witness :
  exists zs xs s' zs1 xs1 s1 zs2 xs2 s2,
    Sampler.sample_arhmm Standins.steady_sample 7%nat [1; 2; 3]%Z (2 + 3) true
      Sampler.toy_interp = Ok (zs, xs, s')
    /\ Sampler.sample_arhmm Standins.steady_sample 7%nat [1; 2; 3]%Z 2 true
         Sampler.toy_interp = Ok (zs1, xs1, s1)
    /\ Sampler.sample_arhmm Standins.steady_sample 7%nat [1; 2; 3]%Z 3 true s1
       = Ok (zs2, xs2, s2)
    /\ zs = zs1 ++ zs2 /\ xs = xs1 ++ xs2
    /\ Sampler.rng s2 = Sampler.rng s'.
Proof.
  destruct (Sampler.sample_arhmm Standins.steady_sample 7%nat [1; 2; 3]%Z (2 + 3) true
              Sampler.toy_interp) as [[[zs xs] s']|e] eqn:Hrun;
    [ | vm_compute in Hrun; discriminate ].
  exists zs, xs, s'.
  destruct (sampling_splits_into_two_calls Standins.steady_sample
              steady_sample_reads_only 7%nat [1; 2; 3]%Z 2 3 true
              Sampler.toy_interp zs xs s')
    as (zs1 & xs1 & s1 & zs2 & xs2 & s2 & H); [ lia | lia | exact Hrun | ].
  exists zs1, xs1, s1, zs2, xs2, s2. split; [ reflexivity | exact H ].
Defined.

(** ** More on [make_hollywood_movie] *)

Section MovieFurther.
Import Movie.
Variable np_percentile : image_stack -> Q -> result unit.

Lemma emit_bind {B : Type} (e : event) (k : unit -> movie B) (trace : list event) :
  (emit e ≫= k) trace = k tt (trace ++ [e]).
Proof. reflexivity. Qed.

(** A loop whose body, when it returns, has added one event, has added one
    event per round when it returns. *)
Lemma for_each_trace (ev : nat -> event) (body : nat -> movie unit) :
  (forall x trace trace', body x trace = (Ok tt, trace') -> trace' = trace ++ [ev x]) ->
  forall xs trace trace',
    for_each xs body trace = (Ok tt, trace') -> trace' = trace ++ map ev xs.
Proof.
  intros Hbody. induction xs as [|x xs IH]; intros trace trace'; simpl.
  - intros [= <-]. now rewrite app_nil_r.
  - unfold mbind, movie_bind. destruct (body x trace) as [[[]|e] t1] eqn:Hx;
      [ | discriminate ].
    intros Hrest. apply IH in Hrest. apply Hbody in Hx. subst.
    now rewrite <- app_assoc.
Qed.

(** A loop whose body adds no event adds none. *)
Lemma for_each_silent (body : nat -> movie unit) :
  (forall x trace r trace', body x trace = (r, trace') -> trace' = trace) ->
  forall xs trace r trace',
    for_each xs body trace = (r, trace') -> trace' = trace.
Proof.
  intros Hbody. induction xs as [|x xs IH]; intros trace r trace'; simpl.
  - now intros [= _ <-].
  - unfold mbind, movie_bind. destruct (body x trace) as [[[]|e] t1] eqn:Hx.
    + intros Hrest. apply IH in Hrest. apply Hbody in Hx. congruence.
    + intros [= _ <-]. now apply Hbody in Hx.
Qed.

Lemma update_frame_silent real z_inf decoded z_smpls N i trace r trace' :
  update_frame real z_inf decoded z_smpls N i trace = (r, trace') -> trace' = trace.
Proof.
  unfold update_frame.
  rewrite lift_bind. destruct (frame_slice real i); [ | now intros [= _ <-] ].
  rewrite lift_bind. destruct (item z_inf i); [ | now intros [= _ <-] ].
  apply for_each_silent. clear. intros j trace r trace'.
  rewrite lift_bind. destruct (item decoded j) as [stack|]; [ | now intros [= _ <-] ].
  rewrite lift_bind. destruct (frame_slice stack i); [ | now intros [= _ <-] ].
  rewrite lift_bind. destruct (item z_smpls j) as [z|]; [ | now intros [= _ <-] ].
  rewrite lift_bind. destruct (item z i); now intros [= _ <-].
Qed.

(** X16. A call that returns has created one figure, shown the real stack
    and each of the [N] decoded stacks once, opened the movie file and written
    the frames 1, 2, ..., [n - 1] of the [n] frames, in this order: frame 0 is
    shown but never written.  It was given between 1 and 9 decoded stacks and
    at least one real frame. *)
Theorem returning_call_writes_frames_1_to_last
    (ffmpeg_available : bool) (K : Z) (real_image_stack : image_stack) (z_inf : list Z)
    (decoded_image_stacks : list image_stack) (z_smpls : list (list Z))
    (titles : option (list string)) (filename : string) (same_vlim : bool)
    (trace : list event) :
  make_hollywood_movie np_percentile ffmpeg_available K real_image_stack z_inf
    decoded_image_stacks z_smpls titles filename same_vlim []
  = (Ok tt, trace) ->
  let N := length decoded_image_stacks in
  trace
  = [NewFigure; Imshow 0] ++ map (fun j => Imshow (j + 1)) (seq 0 N)
    ++ [OpenMovie filename]
    ++ map GrabFrame (seq 1 (n_frames real_image_stack - 1))
  /\ (1 <= N < 10)%nat /\ (1 <= n_frames real_image_stack)%nat.
Proof.
  intros Hrun N. revert Hrun. unfold make_hollywood_movie. fold N.
  rewrite lift_bind. destruct (get_writer ffmpeg_available); [ | discriminate ].
  rewrite lift_bind. destruct (N <? 10)%nat eqn:HN; [ | discriminate ].
  apply Nat.ltb_lt in HN.
  rewrite lift_bind. destruct (colour_limits _ _ _ _); [ | discriminate ].
  rewrite lift_bind. destruct (check_titles titles N) as [given|]; [ | discriminate ].
  rewrite lift_bind. destruct (figure_size decoded_image_stacks N) eqn:Hfig;
    [ | discriminate ].
  assert (HN1 : (1 <= N)%nat).
  { unfold figure_size, item in Hfig. subst N.
    destruct decoded_image_stacks; [ discriminate | simpl; lia ]. }
  unfold draw_and_write. rewrite emit_bind.
  rewrite lift_bind. destruct (frame_slice real_image_stack 0) eqn:Hreal;
    [ | discriminate ].
  assert (Hframes : (1 <= n_frames real_image_stack)%nat).
  { unfold frame_slice in Hreal.
    destruct (0 <? n_frames real_image_stack)%nat eqn:E; [ | discriminate ].
    apply Nat.ltb_lt in E. lia. }
  rewrite emit_bind.
  rewrite lift_bind. destruct (item z_inf 0); [ | discriminate ].
  rewrite lift_bind. destruct (item given 0); [ | discriminate ].
  unfold mbind at 1, movie_bind at 1.
  destruct (for_each (seq 0 N) _ _) as [[[]|e] t1] eqn:Hpanels; [ | discriminate ].
  apply (for_each_trace (fun j => Imshow (j + 1))) in Hpanels.
  2:{ clear. intros j trace trace'.
      rewrite lift_bind. destruct (item decoded_image_stacks j) as [stack|];
        [ | discriminate ].
      rewrite lift_bind. destruct (frame_slice stack 0); [ | discriminate ].
      rewrite emit_bind.
      rewrite lift_bind. destruct (item z_smpls j) as [z|]; [ | discriminate ].
      rewrite lift_bind. destruct (item z 0); [ | discriminate ].
      rewrite lift_bind. destruct (item given (j + 1)); [ | discriminate ].
      now intros [= <-]. }
  rewrite emit_bind. intros Hframes_loop.
  apply (for_each_trace GrabFrame) in Hframes_loop.
  2:{ clear. intros i trace trace'. unfold mbind, movie_bind.
      destruct (update_frame _ _ _ _ _ _ _) as [[[]|e] t] eqn:Hupd; [ | discriminate ].
      apply update_frame_silent in Hupd. subst t. now intros [= <-]. }
  subst. split; [ | split; [ lia | exact Hframes ] ].
  simpl. now rewrite <- !app_assoc.
Qed.

(** X15. Without a decoded stack the call passes the count assertion and
    fails at line 276, on [decoded_image_stacks[0]], before the figure is
    created. *)
Theorem no_decoded_stack_is_an_index_error
    (K : Z) (real_image_stack : image_stack) (z_inf : list Z)
    (z_smpls : list (list Z)) (titles : option (list string)) (filename : string)
    (same_vlim : bool) :
  size real_image_stack <> 0%nat ->
  (titles = None \/ exists title, titles = Some [title]) ->
  make_hollywood_movie np_percentile true K real_image_stack z_inf
    [] z_smpls titles filename same_vlim []
  = (Raise IndexError, []).
Proof.
  intros Hsize Htitles. unfold make_hollywood_movie.
  rewrite lift_bind. cbn [get_writer length].
  rewrite lift_bind. cbn [Nat.ltb Nat.leb].
  rewrite lift_bind.
  assert (Hlim : colour_limits np_percentile same_vlim real_image_stack [] = Ok tt).
  { unfold colour_limits, extremum.
    replace (size real_image_stack =? 0)%nat with false
      by (symmetry; now apply Nat.eqb_neq).
    destruct same_vlim; reflexivity. }
  rewrite Hlim. rewrite lift_bind.
  destruct Htitles as [-> | [title ->]]; reflexivity.
Qed.

(** X17. A first decoded stack of width zero makes the figure size a
    division by zero: the call raises [ZeroDivisionError] before the figure
    is created. *)
Theorem zero_width_stack_is_a_zero_division
    (K : Z) (real_image_stack : image_stack) (z_inf : list Z)
    (first : image_stack) (others : list image_stack)
    (z_smpls : list (list Z)) (titles : option (list string)) (filename : string)
    (same_vlim : bool) (given : list string) :
  (length (first :: others) < 10)%nat ->
  colour_limits np_percentile same_vlim real_image_stack (first :: others) = Ok tt ->
  check_titles titles (length (first :: others)) = Ok given ->
  width first = 0%nat ->
  make_hollywood_movie np_percentile true K real_image_stack z_inf
    (first :: others) z_smpls titles filename same_vlim []
  = (Raise ZeroDivisionError, []).
Proof.
  intros HN Hlim Htitles Hwidth. unfold make_hollywood_movie.
  rewrite lift_bind. cbn [get_writer].
  rewrite lift_bind.
  replace (length (first :: others) <? 10)%nat with true
    by (symmetry; now apply Nat.ltb_lt).
  rewrite lift_bind, Hlim, lift_bind, Htitles, lift_bind.
  unfold figure_size, item. cbn [lookup list_lookup mbind result_bind].
  now rewrite Hwidth.
Qed.
End MovieFurther.

(** X16 on the small movie: two decoded stacks, three frames; frames 1 and
    2 are written. *)
Lemma returning_call_writes_frames_1_to_last_witness :
  let N := length [Movie.clip; Movie.clip] in
  [Movie.NewFigure; Movie.Imshow 0; Movie.Imshow 1; Movie.Imshow 2;
   Movie.OpenMovie "hollywood.mp4"; Movie.GrabFrame 1; Movie.GrabFrame 2]
  = [Movie.NewFigure; Movie.Imshow 0]
    ++ map (fun j => Movie.Imshow (j + 1)) (seq 0 N)
    ++ [Movie.OpenMovie "hollywood.mp4"]
    ++ map Movie.GrabFrame (seq 1 (Movie.n_frames Movie.clip - 1))
  /\ (1 <= N < 10)%nat /\ (1 <= Movie.n_frames Movie.clip)%nat.
Proof.
  apply (returning_call_writes_frames_1_to_last Movie.percentile_ok true 3
           Movie.clip [0; 1; 2]%Z [Movie.clip; Movie.clip]
           [[0; 1; 2]; [2; 2; 1]]%Z None "hollywood.mp4" true).
  reflexivity.
Defined.

(** X15 on the small movie without decoded stacks. *)
Lemma no_decoded_stack_is_an_index_error_witness :
  Movie.make_hollywood_movie Movie.percentile_ok true 3 Movie.clip [0; 1; 2]%Z
    [] [] None "hollywood.mp4" true []
  = (Raise IndexError, []).
Proof.
  apply (no_decoded_stack_is_an_index_error Movie.percentile_ok 3 Movie.clip
           [0; 1; 2]%Z [] None "hollywood.mp4" true).
  - vm_compute. discriminate.
  - now left.
Defined.

(** X17 on a decoded stack of three frames of height 4 and width 0. *)
Lemma zero_width_stack_is_a_zero_division_witness :
  Movie.make_hollywood_movie Movie.percentile_ok true 3 Movie.clip [0; 1; 2]%Z
    [{| Movie.n_frames := 3; Movie.height := 4; Movie.width := 0;
        Movie.n_channels := 1 |}]
    [[0; 1; 2]]%Z None "hollywood.mp4" true []
  = (Raise ZeroDivisionError, []).
Proof.
  apply (zero_width_stack_is_a_zero_division Movie.percentile_ok 3 Movie.clip
           [0; 1; 2]%Z _ [] [[0; 1; 2]]%Z None "hollywood.mp4" true
           (Movie.default_titles 1)).
  - simpl. lia.
  - reflexivity.
  - reflexivity.
  - reflexivity.
Defined.


(** ** Properties of [fit_model] as a whole *)

Section FitModelProperties.
Import FitModel.
Context {P X U KW LPS LL : Type}.
Variable hmm_fit :
  nat -> nat -> nat -> KW -> list X -> option (list U) -> result (list P * LPS).
Variable log_likelihood : list P -> list X -> option (list U) -> result LL.
Variable most_likely_states : list P -> X -> option U -> result (list nat).
Variable argsort : list Z -> list nat.

Lemma decode_all_length (model : list P) (trials : list (X * option U)) zs :
  decode_all most_likely_states model trials = Ok zs -> length zs = length trials.
Proof.
  revert zs. induction trials as [|[x u] trials IH]; intros zs; simpl.
  - now intros [= <-].
  - destruct (most_likely_states model x u) as [z|]; [ | discriminate ].
    cbn [mbind result_bind].
    destruct (decode_all most_likely_states model trials) as [zs'|]; [ | discriminate ].
    cbn. intros [= <-]. simpl. now rewrite (IH zs').
Qed.

Lemma zipped_trials (training_data : list X) (training_inputs : option (list U)) :
  length (zip training_data (inputs_or_nones training_data training_inputs))
  = match training_inputs with
    | None => length training_data
    | Some inputs => Nat.min (length training_data) (length inputs)
    end.
Proof.
  rewrite length_zip. destruct training_inputs as [inputs|]; simpl.
  - now rewrite length_map.
  - rewrite repeat_length. lia.
Qed.

(** X9. The returned state paths follow the [zip] of data and inputs:
    without training inputs there is one path per training trial; with
    training inputs there are as many paths as the shorter of the two lists
    has entries, so trials beyond the inputs are dropped without a word. *)
Theorem fit_model_decodes_the_zipped_trials
    (K D M : nat) (kw : KW) (training_data validation_data test_data : list X)
    (training_inputs validation_inputs test_inputs : option (list U))
    (res : fit_results) :
  fit_model hmm_fit log_likelihood most_likely_states argsort K D M kw
    training_data validation_data test_data
    training_inputs validation_inputs test_inputs
  = Ok res ->
  length (train_states res)
  = match training_inputs with
    | None => length training_data
    | Some inputs => Nat.min (length training_data) (length inputs)
    end.
Proof.
  unfold fit_model.
  destruct (hmm_fit K D M kw training_data training_inputs) as [[fitted l]|];
    [ | discriminate ].
  cbn [mbind result_bind].
  destruct (log_likelihood fitted validation_data validation_inputs);
    [ | discriminate ].
  cbn [mbind result_bind].
  destruct (log_likelihood fitted test_data test_inputs); [ | discriminate ].
  cbn [mbind result_bind].
  destruct (decode_all most_likely_states fitted _) as [first|]; [ | discriminate ].
  cbn [mbind result_bind].
  destruct (Relabel.sort_states_by_usage argsort K first fitted)
    as [[[usage perm] permuted]|]; [ | discriminate ].
  cbn [mbind result_bind].
  destruct (decode_all most_likely_states permuted _) as [paths|] eqn:Hpaths;
    [ | discriminate ].
  cbn. intros [= <-]. cbn [train_states].
  rewrite (decode_all_length _ _ _ Hpaths). apply zipped_trials.
Qed.

(** X18. With no training trial to decode (no training data, or an empty
    list of training inputs) the function fits and scores the model and then
    raises a [ValueError], from [np.concatenate] of an empty list. *)
Theorem fit_model_without_trials_raises
    (K D M : nat) (kw : KW) (training_data validation_data test_data : list X)
    (training_inputs validation_inputs test_inputs : option (list U))
    fitted l v t :
  hmm_fit K D M kw training_data training_inputs = Ok (fitted, l) ->
  log_likelihood fitted validation_data validation_inputs = Ok v ->
  log_likelihood fitted test_data test_inputs = Ok t ->
  training_data = [] \/ training_inputs = Some [] ->
  fit_model hmm_fit log_likelihood most_likely_states argsort K D M kw
    training_data validation_data test_data
    training_inputs validation_inputs test_inputs
  = Raise ValueError.
Proof.
  intros Hfit Hval Htest Hempty. unfold fit_model.
  rewrite Hfit. cbn [mbind result_bind]. rewrite Hval. cbn [mbind result_bind].
  rewrite Htest. cbn [mbind result_bind].
  assert (Hzip : zip training_data (inputs_or_nones training_data training_inputs) = []).
  { destruct Hempty as [-> | ->]; [ reflexivity | ].
    simpl. now destruct training_data. }
  rewrite Hzip. reflexivity.
Qed.
End FitModelProperties.

(** X9 on the stand-ins: three training trials, inputs for two of them. *)
Lemma fit_model_decodes_the_zipped_trials_witness :
  exists res,
    FitModel.fit_model FitModel.toy_fit FitModel.toy_likelihood FitModel.toy_decode
      Relabel.argsort_insertion 3 1 1 tt
      [[2; 0; 2]; [1; 2; 0; 2]; [1; 1]] [[1]] [[1]; [2]]
      (Some [5; 6]%Z) None None
    = Ok res
    /\ length (FitModel.train_states res) = Nat.min 3 2.
Proof.
  eexists. split; [ vm_compute; reflexivity | ].
  apply (fit_model_decodes_the_zipped_trials FitModel.toy_fit FitModel.toy_likelihood
           FitModel.toy_decode Relabel.argsort_insertion 3 1 1 tt
           [[2; 0; 2]; [1; 2; 0; 2]; [1; 1]] [[1]] [[1]; [2]]
           (Some [5; 6]%Z) None None).
  vm_compute. reflexivity.
Defined.

(** X18 on the stand-ins: training data, but an empty list of inputs. *)
Lemma fit_model_without_trials_raises_witness :
  FitModel.fit_model FitModel.toy_fit FitModel.toy_likelihood FitModel.toy_decode
    Relabel.argsort_insertion 3 1 1 tt
    [[2; 0; 2]; [1; 2; 0; 2]] [[1]] [[1]; [2]] (Some []) None None
  = Raise ValueError.
Proof.
  apply (fit_model_without_trials_raises FitModel.toy_fit FitModel.toy_likelihood
           FitModel.toy_decode Relabel.argsort_insertion 3 1 1 tt
           [[2; 0; 2]; [1; 2; 0; 2]] [[1]] [[1]; [2]] (Some []) None None
           (seq 0 3) 2%nat (-1)%Z (-2)%Z).
  - reflexivity.
  - reflexivity.
  - reflexivity.
  - now right.
Defined.


(** ** Properties of [plot_validation_likelihoods] *)

Section ValidationPlotProperties.
Import ValidationPlot.
Variable plt_plot : list nat -> list Preprocess.npfloat -> string -> string -> result unit.

Lemma plot_models_plottable (items : list (string * model_results))
    (line_styles : gmap string string) (T_val : Q) :
  Forall (plottable plt_plot line_styles T_val) items ->
  forall trace,
    exists lines,
      plot_models plt_plot items line_styles T_val trace = (None, trace ++ lines)
      /\ Forall2 (fun item line =>
                    exists ls, line_styles !! item.1 = Some ls
                               /\ line = PlotLine (sorted_keys item.2)
                                           (scaled_likelihoods item.2
                                              (sorted_keys item.2) T_val)
                                           ls item.1)
           items lines.
Proof.
  induction 1 as [|[name results] items (ls & Hls & Hplot) _ IH]; intros trace; simpl.
  - exists []. rewrite app_nil_r. split; [ reflexivity | constructor ].
  - simpl in Hls, Hplot. rewrite Hls, Hplot.
    destruct (IH (trace ++ [PlotLine (sorted_keys results)
                              (scaled_likelihoods results (sorted_keys results) T_val)
                              ls name])) as (lines & Hrun & Hlines).
    eexists (_ :: lines). rewrite Hrun, <- app_assoc. split; [ reflexivity | ].
    constructor; [ | exact Hlines ]. exists ls. auto.
Qed.

Lemma plot_models_app (before after : list (string * model_results))
    (line_styles : gmap string string) (T_val : Q) (trace : list plot_event) :
  Forall (plottable plt_plot line_styles T_val) before ->
  exists lines,
    plot_models plt_plot (before ++ after) line_styles T_val trace
    = plot_models plt_plot after line_styles T_val (trace ++ lines)
    /\ length lines = length before.
Proof.
  intros H. revert trace.
  induction H as [|[name results] before (ls & Hls & Hplot) _ IH]; intros trace; simpl.
  - exists []. now rewrite app_nil_r.
  - simpl in Hls, Hplot. rewrite Hls, Hplot.
    destruct (IH (trace ++ [PlotLine (sorted_keys results)
                              (scaled_likelihoods results (sorted_keys results) T_val)
                              ls name])) as (lines & Hrun & Hlen).
    eexists (_ :: lines). rewrite Hrun, <- app_assoc. simpl.
    split; [ reflexivity | now rewrite Hlen ].
Qed.

(** X19. The function raises a [KeyError] at the first model, in the order
    of [all_results], whose name has no entry in [line_styles]: the figure
    has been created and the models before it have been plotted, one line
    each; nothing more is drawn and no figure is returned. *)
Theorem missing_line_style_is_a_key_error
    (before after : list (string * model_results)) (name : string)
    (results : model_results) (line_styles : gmap string string) (T_val : Q) :
  Forall (plottable plt_plot line_styles T_val) before ->
  line_styles !! name = None ->
  exists lines,
    plot_validation_likelihoods plt_plot (before ++ (name, results) :: after)
      line_styles T_val
    = (inl (KeyError name), Figure :: lines)
    /\ length lines = length before.
Proof.
  intros Hbefore Hname. unfold plot_validation_likelihoods.
  destruct (plot_models_app before ((name, results) :: after) line_styles T_val
              [Figure] Hbefore) as (lines & Hrun & Hlen).
  exists lines. rewrite Hrun. simpl. rewrite Hname. auto.
Qed.

(** X20. With the default [line_styles], an empty dictionary, the function
    cannot plot anything: for every non-empty [all_results] it raises a
    [KeyError] on the first model's name, right after creating the figure and
    before matplotlib is asked for a line. *)
Theorem default_line_styles_raise_key_error
    (name : string) (results : model_results)
    (others : list (string * model_results)) (T_val : Q) :
  plot_validation_likelihoods plt_plot ((name, results) :: others)
    default_line_styles T_val
  = (inl (KeyError name), [Figure]).
Proof.
  unfold plot_validation_likelihoods, default_line_styles. simpl.
  now rewrite lookup_empty.
Qed.

Lemma strictly_sorted (l : list nat) :
  Sorted Nat.le l -> NoDup l -> StronglySorted Nat.lt l.
Proof.
  intros Hs Hn. apply Sorted.Sorted_StronglySorted in Hs; [ | intros x y z; lia ].
  induction Hs as [|x l Hs IH Hx]; [ constructor | ].
  apply NoDup_cons in Hn as [Hnot Hn].
  constructor; [ now apply IH | ].
  rewrite Forall_forall in Hx. apply Forall_forall. intros y Hy.
  specialize (Hx y Hy). assert (x <> y) by (intros ->; contradiction). lia.
Qed.

Lemma sorted_keys_spec (results : model_results) :
  StronglySorted Nat.lt (sorted_keys results)
  /\ forall K, K ∈ sorted_keys results <-> is_Some (results !! K).
Proof.
  unfold sorted_keys.
  pose proof (merge_sort_Permutation Nat.le (map fst (map_to_list results))) as Hp.
  split.
  - apply strictly_sorted.
    + apply (Sorted_merge_sort Nat.le).
    + rewrite Hp. apply (NoDup_fst_map_to_list results).
  - intros K. rewrite Hp. split.
    + intros HK. apply (list_elem_of_fmap fst) in HK as ([K' v] & -> & HK).
      apply elem_of_map_to_list in HK. now exists v.
    + intros [v Hv]. apply (list_elem_of_fmap fst). exists (K, v).
      split; [ reflexivity | now apply elem_of_map_to_list ].
Qed.

(** X21. When every model has a line style and matplotlib draws every line,
    the function returns the figure, having drawn one line per model in the
    order of [all_results], then the legend and the axis labels.  The line of
    a model carries its own style and name; its [Ks] are the keys of its
    results, each once, in increasing order, with one likelihood per [K]. *)
Theorem plottable_models_are_all_plotted
    (all_results : list (string * model_results))
    (line_styles : gmap string string) (T_val : Q) :
  Forall (plottable plt_plot line_styles T_val) all_results ->
  exists lines,
    plot_validation_likelihoods plt_plot all_results line_styles T_val
    = (inr tt,
       Figure :: lines
       ++ [Legend; XLabel "num. discrete states"; YLabel "validation log lkhd."])
    /\ Forall2 (fun item line =>
                  exists Ks val_lls ls,
                    line = PlotLine Ks val_lls ls item.1
                    /\ line_styles !! item.1 = Some ls
                    /\ StronglySorted Nat.lt Ks
                    /\ (forall K, K ∈ Ks <-> is_Some (item.2 !! K))
                    /\ length val_lls = length Ks)
         all_results lines.
Proof.
  intros Hstyled. unfold plot_validation_likelihoods.
  destruct (plot_models_plottable all_results line_styles T_val Hstyled [Figure])
    as (lines & Hrun & Hlines).
  exists lines. rewrite Hrun. split; [ reflexivity | ].
  eapply Forall2_impl; [ exact Hlines | ].
  intros [name results] line (ls & Hls & ->). simpl in *.
  destruct (sorted_keys_spec results) as [Hsorted Hkeys].
  exists (sorted_keys results),
    (scaled_likelihoods results (sorted_keys results) T_val), ls.
  repeat split; try assumption; try apply Hkeys.
  unfold scaled_likelihoods. now rewrite length_map.
Qed.
End ValidationPlotProperties.

(** X19 on two models of which only the first has a style. *)
Lemma missing_line_style_is_a_key_error_witness :
  exists lines,
    ValidationPlot.plot_validation_likelihoods ValidationPlot.plot_dashes
      ([("arhmm", {[ 4%nat := (-3)%Q; 2%nat := (-5)%Q ]})]
       ++ ("hmm", {[ 2%nat := (-7)%Q ]}) :: [])
      {[ "arhmm" := "-" ]} 1%Q
    = (inl (ValidationPlot.KeyError "hmm"), ValidationPlot.Figure :: lines)
    /\ length lines = length [("arhmm", ({[ 4%nat := (-3)%Q; 2%nat := (-5)%Q ]} : gmap nat Q))].
Proof.
  apply (missing_line_style_is_a_key_error ValidationPlot.plot_dashes
           [("arhmm", {[ 4%nat := (-3)%Q; 2%nat := (-5)%Q ]})] []
           "hmm" {[ 2%nat := (-7)%Q ]} {[ "arhmm" := "-" ]} 1%Q).
  - repeat constructor. exists "-". split; reflexivity.
  - reflexivity.
Defined.

(** X21 on two models with a style each. *)
Lemma plottable_models_are_all_plotted_witness :
  exists lines,
    ValidationPlot.plot_validation_likelihoods ValidationPlot.plot_dashes
      [("arhmm", {[ 4%nat := (-3)%Q; 2%nat := (-5)%Q ]});
       ("hmm", {[ 2%nat := (-7)%Q ]})]
      {[ "arhmm" := "-"; "hmm" := "--" ]} 1%Q
    = (inr tt,
       ValidationPlot.Figure :: lines
       ++ [ValidationPlot.Legend; ValidationPlot.XLabel "num. discrete states";
           ValidationPlot.YLabel "validation log lkhd."])
    /\ length lines = 2%nat.
Proof.
  destruct (plottable_models_are_all_plotted ValidationPlot.plot_dashes
              [("arhmm", {[ 4%nat := (-3)%Q; 2%nat := (-5)%Q ]});
               ("hmm", {[ 2%nat := (-7)%Q ]})]
              {[ "arhmm" := "-"; "hmm" := "--" ]} 1%Q)
    as (lines & Hrun & Hlines).
  - repeat constructor.
    + exists "-". split; reflexivity.
    + exists "--". split; reflexivity.
  - exists lines. split; [ exact Hrun | ].
    apply Forall2_length in Hlines. now rewrite <- Hlines.
Defined.

(** ** Properties of [plot_sampled_latents] *)

Section LatentsPlotProperties.
Import LatentsPlot.
Context {G : Type}.
Variable np_mean_std : list (nat * nat) -> result unit.
Variable plt_fill_between : nat -> list (nat * nat) -> nat -> result unit.
Variable np_random_choice : G -> nat -> nat -> list nat * G.

Lemma plot_samples_returns (i_plot : list nat) (x_smpls : list (nat * nat)) (d : nat) :
  forall trace trace',
    plot_samples i_plot x_smpls d trace = (Ok tt, trace') ->
    trace' = trace ++ map (fun i => SampleLine i d) i_plot.
Proof.
  induction i_plot as [|i i_plot IH]; intros trace trace'; simpl.
  - intros [= <-]. now rewrite app_nil_r.
  - destruct (column x_smpls i d); [ | discriminate ].
    intros H. apply IH in H. now rewrite <- app_assoc in H.
Qed.

Lemma sample_lines_of_map (i_plot : list nat) (d : nat) :
  length (List.filter is_sample_line (map (fun i => SampleLine i d) i_plot))
  = length i_plot.
Proof. induction i_plot as [|i l IH]; simpl; [ reflexivity | now rewrite IH ]. Qed.

(** X23. With fewer than 10 samples the function draws no random number:
    whatever it returns or raises, numpy's generator is in the state it was
    in. *)
Theorem few_samples_leave_the_generator_alone
    (training_data : nat * nat) (x_smpls : list (nat * nat)) (g : G) :
  (length x_smpls < 10)%nat ->
  snd (plot_sampled_latents np_mean_std plt_fill_between np_random_choice
         training_data x_smpls g)
  = g.
Proof.
  intros Hn. unfold plot_sampled_latents. destruct training_data as [T D].
  destruct (np_mean_std x_smpls); [ | reflexivity ].
  destruct (T * D =? 0)%nat; [ reflexivity | ].
  assert (Hdims : forall dims trace,
             snd (plot_dims plt_fill_between np_random_choice T dims x_smpls g trace)
             = g).
  { induction dims as [|d dims IH]; intros trace; simpl; [ reflexivity | ].
    destruct (column x_smpls 0 d); [ | reflexivity ].
    unfold choose_samples.
    replace (length x_smpls <? 10)%nat with true by (symmetry; now apply Nat.ltb_lt).
    destruct (plot_samples _ _ _ _) as [[[]|e] t]; [ | reflexivity ].
    destruct (plt_fill_between T x_smpls d); [ apply IH | reflexivity ]. }
  specialize (Hdims (seq 0 D) [Figure]).
  destruct (plot_dims _ _ _ _ _ _ _) as [[[[]|e] t] g']; exact Hdims.
Qed.

(** X24. Without any sample (numpy then warns and returns nan for mean and
    standard deviation) the function creates the figure and raises an
    [IndexError], on [x_smpls[0]]. *)
Theorem no_sample_is_an_index_error (T D : nat) (g : G) :
  np_mean_std [] = Ok tt ->
  (T * D)%nat <> 0%nat ->
  plot_sampled_latents np_mean_std plt_fill_between np_random_choice (T, D) [] g
  = (Raise IndexError, [Figure], g).
Proof.
  intros Hmean Hsize. unfold plot_sampled_latents. rewrite Hmean.
  replace (T * D =? 0)%nat with false by (symmetry; now apply Nat.eqb_neq).
  destruct D as [|D]; [ lia | ]. reflexivity.
Qed.

(** numpy's [choice] returns as many indices as asked for. *)
Hypothesis choice_size :
  forall g n size, (size <= n)%nat -> length (fst (np_random_choice g n size)) = size.

Lemma plot_dims_sample_lines (T : nat) (x_smpls : list (nat * nat)) (dims : list nat) :
  forall g trace trace' g',
    plot_dims plt_fill_between np_random_choice T dims x_smpls g trace
    = (Ok tt, trace', g') ->
    length (List.filter is_sample_line trace')
    = (length (List.filter is_sample_line trace)
       + length dims * (1 + Nat.min (length x_smpls) 10))%nat.
Proof.
  induction dims as [|d dims IH]; intros g trace trace' g'; simpl.
  - intros [= <- _]. lia.
  - destruct (column x_smpls 0 d); [ | discriminate ].
    destruct (choose_samples np_random_choice (length x_smpls) g) as [i_plot g1] eqn:Hch.
    destruct (plot_samples _ _ _ _) as [[[]|e] t] eqn:Hs; [ | discriminate ].
    destruct (plt_fill_between T x_smpls d); [ | discriminate ].
    intros Hrest. apply IH in Hrest. apply plot_samples_returns in Hs. subst t.
    rewrite Hrest. rewrite !List.filter_app, !length_app, sample_lines_of_map.
    simpl.
    assert (Hlen : length i_plot = Nat.min (length x_smpls) 10).
    { unfold choose_samples in Hch.
      destruct (length x_smpls <? 10)%nat eqn:E.
      - injection Hch as <- _. rewrite length_seq. apply Nat.ltb_lt in E. lia.
      - apply Nat.ltb_ge in E.
        pose proof (choice_size g (length x_smpls) 10 E) as Hc.
        rewrite Hch in Hc. simpl in Hc. lia. }
    lia.
Qed.

(** X22. A call that returns has drawn, for each of the [D] dimensions, the
    first sample once more than the samples it chose: [1 + min(n, 10)] sample
    lines per dimension for [n] samples.  With fewer than 10 samples every
    sample is drawn and the first one twice; never are more than 11 lines
    drawn in a dimension. *)
Theorem sample_lines_per_dimension
    (T D : nat) (x_smpls : list (nat * nat)) (g : G) trace g' :
  plot_sampled_latents np_mean_std plt_fill_between np_random_choice (T, D) x_smpls g
  = (Ok tt, trace, g') ->
  length (List.filter is_sample_line trace)
  = (D * (1 + Nat.min (length x_smpls) 10))%nat.
Proof.
  unfold plot_sampled_latents. destruct (np_mean_std x_smpls); [ | discriminate ].
  destruct (T * D =? 0)%nat; [ discriminate | ].
  destruct (plot_dims _ _ _ _ _ _ _) as [[[[]|e] t] g1] eqn:Hdims; [ | discriminate ].
  intros [= <- _]. apply plot_dims_sample_lines in Hdims.
  rewrite List.filter_app, length_app, Hdims, length_seq. simpl. lia.
Qed.
End LatentsPlotProperties.

(** X23 on three samples. *)
Lemma few_samples_leave_the_generator_alone_witness :
  snd (LatentsPlot.plot_sampled_latents LatentsPlot.mean_of_equal_shapes
         LatentsPlot.band_of_equal_lengths LatentsPlot.first_indices (5, 2)%nat
         [(5, 2); (5, 2); (5, 2)]%nat 0%nat)
  = 0%nat.
Proof.
  apply (few_samples_leave_the_generator_alone LatentsPlot.mean_of_equal_shapes
           LatentsPlot.band_of_equal_lengths LatentsPlot.first_indices (5, 2)%nat
           [(5, 2); (5, 2); (5, 2)]%nat 0%nat).
  simpl. lia.
Defined.

(** X24 on training data of five time steps and two dimensions. *)
Lemma no_sample_is_an_index_error_witness :
  LatentsPlot.plot_sampled_latents LatentsPlot.mean_of_equal_shapes
    LatentsPlot.band_of_equal_lengths LatentsPlot.first_indices (5, 2)%nat [] 0%nat
  = (Raise IndexError, [LatentsPlot.Figure], 0%nat).
Proof.
  apply (no_sample_is_an_index_error LatentsPlot.mean_of_equal_shapes
           LatentsPlot.band_of_equal_lengths LatentsPlot.first_indices 5 2 0%nat).
  - reflexivity.
  - simpl. lia.
Defined.

Lemma first_indices_size (g n size : nat) :
  (size <= n)%nat -> length (fst (LatentsPlot.first_indices g n size)) = size.
Proof. intros _. simpl. apply length_seq. Qed.

(** X22 on twelve samples in two dimensions: 22 sample lines. *)
Lemma sample_lines_per_dimension_witness :
  exists trace g',
    LatentsPlot.plot_sampled_latents LatentsPlot.mean_of_equal_shapes
      LatentsPlot.band_of_equal_lengths LatentsPlot.first_indices (5, 2)%nat
      (repeat (5, 2)%nat 12) 0%nat
    = (Ok tt, trace, g')
    /\ length (List.filter LatentsPlot.is_sample_line trace) = 22%nat.
Proof.
  eexists _, _. split; [ vm_compute; reflexivity | ].
  apply (sample_lines_per_dimension LatentsPlot.mean_of_equal_shapes
           LatentsPlot.band_of_equal_lengths LatentsPlot.first_indices
           first_indices_size 5 2 (repeat (5, 2)%nat 12) 0%nat _ 2%nat).
  vm_compute. reflexivity.
Defined.
